(** * S2A Smart Academic Advisor: the constraint-aware recommender

    A shallow embedding of the recommender of [s2a_prototype/app.py]
    ([iri_to_label], [_get_int], [_get_str], [_course_meta],
    [_constraint_checks], [recommend]) and the properties of its course,
    career and paper results.

    - An rdflib [Graph] is the list of its triples in the store's
      enumeration order; [add] is set-idempotent.
    - A Python [set] is the duplicate-free list of its elements in the
      order in which the set iterates.  That order is decided by the hashes
      of the elements (randomised per process for strings), so it is a
      parameter of the model: a [SetOrder].
    - Python [int] is [Z]; [str] is [string] (UTF-8 bytes, compared
      bytewise, which is code point order). *)

From Stdlib Require Import String Ascii List ZArith Lia Bool.
From Stdlib Require Import Permutation Sorted DecimalString OrdersEx RelationClasses.
Import ListNotations.
Local Open Scope string_scope.
Local Open Scope Z_scope.

(* ================================================================== *)
(** * Python built-ins used by the recommender *)
(* ================================================================== *)

Module Py.

(** [str(n)] for an [int]. *)
Definition str_int (z : Z) : string := NilZero.string_of_int (Z.to_int z).

(** [f"{x}"] for an [Optional[int]] and an [Optional[str]]. *)
Definition fmt_opt_int (o : option Z) : string :=
  match o with Some z => str_int z | None => "None" end.

Definition fmt_opt_str (o : option string) : string :=
  match o with Some s => s | None => "None" end.

(** [x or d] on an [Optional[int]]: [None] and [0] are both falsy. *)
Definition or_int (o : option Z) (d : Z) : Z :=
  match o with
  | Some z => if z =? 0 then d else z
  | None => d
  end.

(** [not x] on an [Optional[str]]: [None] and the empty string are falsy. *)
Definition not_str (o : option string) : bool :=
  match o with
  | Some s => (s =? "")%string
  | None => true
  end.

(** [a == b] on two [Optional[str]]. *)
Definition opt_str_eqb (a b : option string) : bool :=
  match a, b with
  | Some x, Some y => (x =? y)%string
  | None, None => true
  | _, _ => false
  end.

(** [x in xs]. *)
Definition mem (x : string) (xs : list string) : bool :=
  existsb (String.eqb x) xs.

(** [list.sort] / [sorted]: a stable sort.  [before x y] says that [x]
    may stay in front of [y]; an element is moved behind exactly the
    elements that must precede it, so equal keys keep their order. *)
Fixpoint insert {A} (before : A -> A -> bool) (x : A) (l : list A) : list A :=
  match l with
  | [] => [x]
  | y :: l' => if before x y then x :: l else y :: insert before x l'
  end.

Definition sorted {A} (before : A -> A -> bool) (l : list A) : list A :=
  fold_right (insert before) [] l.

(** [sorted(xs, key=key)] with string keys. *)
Definition by_key {A} (key : A -> string) (x y : A) : bool :=
  (key x <=? key y)%string.

(** Comparison of the score tuples [(int, int, int)]. *)
Definition tuple3_leb (a b : Z * Z * Z) : bool :=
  let '(a1, a2, a3) := a in
  let '(b1, b2, b3) := b in
  (a1 <? b1) || ((a1 =? b1) && ((a2 <? b2) || ((a2 =? b2) && (a3 <=? b3)))).

(** Comparison of the career keys [(int, str)]. *)
Definition tuple_int_str_leb (a b : Z * string) : bool :=
  (fst a <? fst b) || ((fst a =? fst b) && (snd a <=? snd b)%string).

(** [s.split("#")[-1]]: the text after the last ['#']. *)
Fixpoint after_last_hash (s : string) : string :=
  match s with
  | EmptyString => EmptyString
  | String c s' =>
      if existsb (Ascii.eqb "#"%char) (list_ascii_of_string s')
      then after_last_hash s'
      else if Ascii.eqb c "#"%char then s' else s
  end.

(** The iteration order of sets.  [iter l] is the order in which a set
    whose distinct elements were inserted in the order [l] is iterated. *)
Record SetOrder := {
  iter : list string -> list string;
  iter_perm : forall l, Permutation (iter l) l
}.

(** [set(xs)]. *)
Definition set (O : SetOrder) (xs : list string) : list string :=
  iter O (nodup string_dec xs).

(** [a.intersection(b)], [a.union(b)], [a.issubset(b)]. *)
Definition intersection (O : SetOrder) (a b : list string) : list string :=
  iter O (filter (fun x => mem x b) a).

Definition union (O : SetOrder) (a b : list string) : list string :=
  set O (a ++ b)%list.

Definition issubset (a b : list string) : bool :=
  forallb (fun x => mem x b) a.

(** Two iteration orders, both possible for a hash table. *)
Definition insertion_order : SetOrder :=
  {| iter := fun l => l; iter_perm := fun l => Permutation_refl l |}.


End Py.

(* ================================================================== *)
(** * The triple store *)
(* ================================================================== *)

Definition URIRef := string.

Definition BASE : string := "http://example.org/s2a#".

(** [S2A[name]], the node of a local name in the namespace. *)
Definition S2A (name : string) : URIRef := BASE ++ name.

(** The fixed vocabulary.  Attribute predicates are typed by the literal
    they carry: [add_int] writes [xsd:integer], [add_str] and [add_label]
    write [xsd:string]. *)
Module P.
Inductive Class := Student | Course | Skill | Career | ResearchPaper.
Inductive Rel :=
  hasPrerequisite | takesCourse | hasInterest | teachesSkill
| requiresSkill | relatedTo.
Inductive IntProp :=
  credits | semester | difficulty | targetSemester | maxCredits | maxDifficulty.
Inductive StrProp := label | track | preferredTrack.

Definition Class_dec (a b : Class) : {a = b} + {a <> b}.
Proof. decide equality. Defined.
Definition Rel_dec (a b : Rel) : {a = b} + {a <> b}.
Proof. decide equality. Defined.
Definition IntProp_dec (a b : IntProp) : {a = b} + {a <> b}.
Proof. decide equality. Defined.
Definition StrProp_dec (a b : StrProp) : {a = b} + {a <> b}.
Proof. decide equality. Defined.

Definition Class_eqb (a b : Class) : bool := if Class_dec a b then true else false.
Definition Rel_eqb (a b : Rel) : bool := if Rel_dec a b then true else false.
Definition IntProp_eqb (a b : IntProp) : bool := if IntProp_dec a b then true else false.
Definition StrProp_eqb (a b : StrProp) : bool := if StrProp_dec a b then true else false.
End P.

Inductive Triple :=
| TType (s : URIRef) (c : P.Class)               (* (s, RDF.type, :c) *)
| TRel (s : URIRef) (p : P.Rel) (o : URIRef)     (* (s, :p, o) *)
| TInt (s : URIRef) (p : P.IntProp) (v : Z)      (* (s, :p, "v"^^xsd:integer) *)
| TStr (s : URIRef) (p : P.StrProp) (v : string) (* (s, :p, "v"^^xsd:string) *).

Definition Triple_dec (a b : Triple) : {a = b} + {a <> b}.
Proof.
  decide equality;
    auto using string_dec, Z.eq_dec, P.Class_dec, P.Rel_dec, P.IntProp_dec,
      P.StrProp_dec.
Defined.

Definition Graph := list Triple.

(** [g.add(t)]: a triple already present is not stored again. *)
Definition add (g : Graph) (t : Triple) : Graph :=
  if in_dec Triple_dec t g then g else (g ++ [t])%list.

Definition build (ts : list Triple) : Graph := fold_left add ts [].

(** [g.subjects(RDF.type, :c)]. *)
Definition subjects (g : Graph) (c : P.Class) : list URIRef :=
  flat_map (fun t =>
    match t with
    | TType s c' => if P.Class_eqb c c' then [s] else []
    | _ => []
    end) g.

(** [g.objects(s, :p)] for a relation [p]. *)
Definition objects (g : Graph) (s : URIRef) (p : P.Rel) : list URIRef :=
  flat_map (fun t =>
    match t with
    | TRel s' p' o => if (s =? s')%string && P.Rel_eqb p p' then [o] else []
    | _ => []
    end) g.

Definition int_values (g : Graph) (s : URIRef) (p : P.IntProp) : list Z :=
  flat_map (fun t =>
    match t with
    | TInt s' p' v => if (s =? s')%string && P.IntProp_eqb p p' then [v] else []
    | _ => []
    end) g.

Definition str_values (g : Graph) (s : URIRef) (p : P.StrProp) : list string :=
  flat_map (fun t =>
    match t with
    | TStr s' p' v => if (s =? s')%string && P.StrProp_eqb p p' then [v] else []
    | _ => []
    end) g.

(** [(s, :p, o) in g]. *)
Definition contains (g : Graph) (s : URIRef) (p : P.Rel) (o : URIRef) : bool :=
  Py.mem o (objects g s p).

(** [g.value(s, :p)]: the first object the store enumerates, if any. *)
Definition value_int (g : Graph) (s : URIRef) (p : P.IntProp) : option Z :=
  hd_error (int_values g s p).

Definition value_str (g : Graph) (s : URIRef) (p : P.StrProp) : option string :=
  hd_error (str_values g s p).

(* ================================================================== *)
(** * KG helpers *)
(* ================================================================== *)

Definition iri_to_label (g : Graph) (node : URIRef) : string :=
  match value_str g node P.label with
  | Some lab => if (lab =? "")%string then Py.after_last_hash node else lab
  | None => Py.after_last_hash node
  end.

Definition _get_int (g : Graph) (subj : URIRef) (prop : P.IntProp) : option Z :=
  value_int g subj prop.

Definition _get_str (g : Graph) (subj : URIRef) (prop : P.StrProp) : option string :=
  value_str g subj prop.

Record Meta := {
  credits : Z;
  semester : option Z;
  difficulty : option Z;
  track : option string
}.

Definition _course_meta (g : Graph) (course : URIRef) : Meta :=
  {| credits := Py.or_int (_get_int g course P.credits) 0;
     semester := _get_int g course P.semester;
     difficulty := _get_int g course P.difficulty;
     track := _get_str g course P.track |}.

(** [int(course_meta["credits"] or 0)]. *)
Definition cred_of (m : Meta) : Z := Py.or_int (Some (credits m)) 0.

(* ================================================================== *)
(** * Constraint checks *)
(* ================================================================== *)

(** The budget line written while the candidate is built; [recommend]
    replaces it during the budget pass. *)
Definition tentative_budget_line
    (max_credits : option Z) (current_total_credits c_cred : Z) : string :=
  match max_credits with
  | None =>
      "credits: course=" ++ Py.str_int c_cred ++ ", current_total="
        ++ Py.str_int current_total_credits ++ ", max=None => selected by relevance"
  | Some m =>
      "credits: course=" ++ Py.str_int c_cred ++ ", current_total="
        ++ Py.str_int current_total_credits ++ ", max=" ++ Py.str_int m
        ++ " => decision during selection"
  end.

Definition _constraint_checks
    (target_semester max_difficulty : option Z) (preferred_track : option string)
    (max_credits : option Z) (current_total_credits : Z) (course_meta : Meta)
  : bool * list string * string :=
  let c_sem := semester course_meta in
  let c_diff := difficulty course_meta in
  let c_track := track course_meta in
  let c_cred := cred_of course_meta in
  let '(ok1, line1) :=
    match target_semester, c_sem with
    | Some t, Some c =>
        if c <=? t
        then (true, "semester: course=" ++ Py.str_int c ++ " ≤ target="
                      ++ Py.str_int t ++ " => OK")
        else (false, "semester: course=" ++ Py.str_int c ++ " > target="
                       ++ Py.str_int t ++ " => FAIL")
    | _, _ =>
        (true, "semester: course=" ++ Py.fmt_opt_int c_sem ++ " vs target="
                 ++ Py.fmt_opt_int target_semester ++ " => OK (no/unknown constraint)")
    end in
  let '(ok2, line2) :=
    match max_difficulty, c_diff with
    | Some m, Some c =>
        if c <=? m
        then (true, "difficulty: course=" ++ Py.str_int c ++ " ≤ max="
                      ++ Py.str_int m ++ " => OK")
        else (false, "difficulty: course=" ++ Py.str_int c ++ " > max="
                       ++ Py.str_int m ++ " => FAIL")
    | _, _ =>
        (true, "difficulty: course=" ++ Py.fmt_opt_int c_diff ++ " vs max="
                 ++ Py.fmt_opt_int max_difficulty ++ " => OK (no/unknown constraint)")
    end in
  let '(ok3, line3) :=
    if Py.not_str preferred_track || Py.not_str c_track
    then (true, "track: course=" ++ Py.fmt_opt_str c_track ++ " vs preferred="
                  ++ Py.fmt_opt_str preferred_track ++ " => OK (no/unknown constraint)")
    else if Py.opt_str_eqb c_track preferred_track
    then (true, "track: course=" ++ Py.fmt_opt_str c_track ++ " == preferred="
                  ++ Py.fmt_opt_str preferred_track ++ " => OK")
    else (false, "track: course=" ++ Py.fmt_opt_str c_track ++ " != preferred="
                   ++ Py.fmt_opt_str preferred_track ++ " => FAIL") in
  (ok1 && ok2 && ok3, [line1; line2; line3],
   tentative_budget_line max_credits current_total_credits c_cred).

(* ================================================================== *)
(** * recommend *)
(* ================================================================== *)

Record Explain := {
  interest_paths : list string;
  prereq_paths : list string;
  constraint_checks : list string;
  budget_line : string
}.

(** [item["explain"]["budget_line"] = line]. *)
Definition set_budget_line (e : Explain) (line : string) : Explain :=
  {| interest_paths := interest_paths e;
     prereq_paths := prereq_paths e;
     constraint_checks := constraint_checks e;
     budget_line := line |}.

Record Candidate := {
  course_uri : URIRef;
  course_label : string;
  c_matched_interests : list string;
  meta : Meta;
  score : Z * Z * Z;
  c_explain : Explain
}.

Record CourseRec := {
  course : string;
  matched_interests : list string;
  explain : Explain
}.

Record CareerRec := {
  career : string;
  matched_skills : list string;
  explain_paths : list string
}.

Record PaperRec := {
  paper : string;
  p_explain_paths : list string
}.

Record Recommendation := {
  courses : list CourseRec;
  careers : list CareerRec;
  papers : list PaperRec
}.

(** The budget line of the selection pass. *)
Definition selected_line (max_credits : option Z) (total c_cred : Z) : string :=
  match max_credits with
  | None =>
      "credits: course=" ++ Py.str_int c_cred ++ ", current_total="
        ++ Py.str_int total ++ ", max=None => SELECTED"
  | Some m =>
      "credits: course=" ++ Py.str_int c_cred ++ ", current_total="
        ++ Py.str_int total ++ " + " ++ Py.str_int c_cred ++ " ≤ max="
        ++ Py.str_int m ++ " => SELECTED"
  end.

Definition skipped_line (m total c_cred : Z) : string :=
  "credits: course=" ++ Py.str_int c_cred ++ ", current_total="
    ++ Py.str_int total ++ " + " ++ Py.str_int c_cred ++ " > max="
    ++ Py.str_int m ++ " => SKIPPED".

(** The decision of the budget loop for an item of [c_cred] credits at
    running total [total]: the line written into the item's explanation,
    and whether the item is selected. *)
Definition budget_decision (max_credits : option Z) (total c_cred : Z)
  : string * bool :=
  match max_credits with
  | None => (selected_line None total c_cred, true)
  | Some m =>
      if total + c_cred <=? m
      then (selected_line (Some m) total c_cred, true)
      else (skipped_line m total c_cred, false)
  end.

(** One iteration of the budget loop over the state [(rec_courses, total)].
    The budget line of the item is overwritten first, selected or not; a
    skipped item stays in the candidate list only, which is not returned. *)
Definition budget_step (max_credits : option Z)
    (st : list CourseRec * Z) (item : Candidate) : list CourseRec * Z :=
  let '(rec_courses, total) := st in
  let c_cred := cred_of (meta item) in
  let decision := budget_decision max_credits total c_cred in
  let item_explain := set_budget_line (c_explain item) (fst decision) in
  if negb (snd decision) then st
  else ((rec_courses
           ++ [{| course := course_label item;
                  matched_interests := c_matched_interests item;
                  explain := item_explain |}])%list,
        total + c_cred).

Definition budget_loop (max_credits : option Z) (candidates : list Candidate)
  : list CourseRec * Z :=
  fold_left (budget_step max_credits) candidates ([], 0).

Section Recommend.

Variable O : Py.SetOrder.
Variable g : Graph.
Variable student_iri : string.

(** [s = URIRef(student_iri)]. *)
Definition s_node : URIRef := student_iri.

Definition taken_courses : list URIRef := Py.set O (objects g s_node P.takesCourse).
Definition interest_skills : list URIRef := Py.set O (objects g s_node P.hasInterest).

Definition target_semester : option Z := _get_int g s_node P.targetSemester.
Definition max_credits : option Z := _get_int g s_node P.maxCredits.
Definition max_difficulty : option Z := _get_int g s_node P.maxDifficulty.
Definition preferred_track : option string := _get_str g s_node P.preferredTrack.

Definition gained_skills : list URIRef :=
  Py.set O (flat_map (fun c => objects g c P.teachesSkill) taken_courses).

Definition student_label : string := iri_to_label g s_node.

Definition interest_path (course_label skill_label : string) : string :=
  student_label ++ " → hasInterest → " ++ skill_label
    ++ " ← teachesSkill ← " ++ course_label.

Definition prereq_path (course_label pre_label : string) : string :=
  course_label ++ " → hasPrerequisite → " ++ pre_label ++ " AND "
    ++ student_label ++ " → takesCourse → " ++ pre_label.

(** The body of the loop over the courses; [None] is [continue]. *)
Definition candidate (course : URIRef) : option Candidate :=
  if Py.mem course taken_courses then None else
  let taught := Py.set O (objects g course P.teachesSkill) in
  let matched := Py.intersection O taught interest_skills in
  match matched with
  | [] => None
  | _ :: _ =>
    let prereqs := Py.set O (objects g course P.hasPrerequisite) in
    if negb (Py.issubset prereqs taken_courses) then None else
    let meta := _course_meta g course in
    let checks :=
      _constraint_checks target_semester max_difficulty preferred_track
        max_credits 0 meta in
    if negb (fst (fst checks)) then None else
    let course_label := iri_to_label g course in
    Some {| course_uri := course;
            course_label := course_label;
            c_matched_interests :=
              Py.sorted String.leb (map (iri_to_label g) matched);
            meta := meta;
            score := (Z.of_nat (length matched),
                      - Py.or_int (difficulty meta) 999,
                      - Py.or_int (semester meta) 999);
            c_explain :=
              {| interest_paths :=
                   map (fun sk => interest_path course_label (iri_to_label g sk))
                     matched;
                 prereq_paths :=
                   map (fun p => prereq_path course_label (iri_to_label g p))
                     (Py.sorted (Py.by_key (iri_to_label g)) prereqs);
                 constraint_checks := snd (fst checks);
                 budget_line := snd checks |} |}
  end.

Definition candidates : list Candidate :=
  flat_map (fun course =>
    match candidate course with Some c => [c] | None => [] end)
    (subjects g P.Course).

(** [candidates.sort(key=lambda x: x["score"], reverse=True)]. *)
Definition ranked : list Candidate :=
  Py.sorted (fun x y => Py.tuple3_leb (score y) (score x)) candidates.

Definition rec_courses : list CourseRec := fst (budget_loop max_credits ranked).

(* ---- careers ---- *)
Definition available_skills : list URIRef := Py.union O interest_skills gained_skills.

Definition career_path (car_label : string) (sk : URIRef) : string :=
  let sk_label := iri_to_label g sk in
  if Py.mem sk interest_skills
  then student_label ++ " → hasInterest → " ++ sk_label
         ++ " ← requiresSkill ← " ++ car_label
  else
    let taught_by :=
      option_map (iri_to_label g)
        (find (fun c => contains g c P.teachesSkill sk) taken_courses) in
    if Py.not_str taught_by
    then sk_label ++ " ← requiresSkill ← " ++ car_label ++ " (skill available)"
    else student_label ++ " → takesCourse → " ++ Py.fmt_opt_str taught_by
           ++ " → teachesSkill → " ++ sk_label ++ " ← requiresSkill ← " ++ car_label.

Definition career_entry (car : URIRef) : option CareerRec :=
  let req := Py.set O (objects g car P.requiresSkill) in
  let matched := Py.intersection O req available_skills in
  match matched with
  | [] => None
  | _ :: _ =>
    let car_label := iri_to_label g car in
    Some {| career := car_label;
            matched_skills := Py.sorted String.leb (map (iri_to_label g) matched);
            explain_paths :=
              map (career_path car_label)
                (Py.sorted (Py.by_key (iri_to_label g)) matched) |}
  end.

Definition career_key (x : CareerRec) : Z * string :=
  (- Z.of_nat (length (matched_skills x)), career x).

Definition rec_careers : list CareerRec :=
  Py.sorted (fun x y => Py.tuple_int_str_leb (career_key x) (career_key y))
    (flat_map (fun car =>
       match career_entry car with Some r => [r] | None => [] end)
       (subjects g P.Career)).

(* ---- papers ---- *)
Definition paper_entry (p : URIRef) : option PaperRec :=
  let related := Py.set O (objects g p P.relatedTo) in
  let matched := Py.intersection O related interest_skills in
  match matched with
  | [] => None
  | _ :: _ =>
    let paper_label := iri_to_label g p in
    Some {| paper := paper_label;
            p_explain_paths :=
              map (fun sk => student_label ++ " → hasInterest → "
                               ++ iri_to_label g sk ++ " ← relatedTo ← " ++ paper_label)
                (Py.sorted (Py.by_key (iri_to_label g)) matched) |}
  end.

Definition rec_papers : list PaperRec :=
  Py.sorted (Py.by_key paper)
    (flat_map (fun p =>
       match paper_entry p with Some r => [r] | None => [] end)
       (subjects g P.ResearchPaper)).

Definition recommend : Recommendation :=
  {| courses := rec_courses; careers := rec_careers; papers := rec_papers |}.

End Recommend.

(** The greedy rule as the specification words it: walk the ranked list
    with a running total; with no budget every candidate is selected,
    otherwise a candidate is selected iff [running_total + credits] does
    not exceed the budget; the walk always moves on to the next candidate.
    Each selected candidate is returned with the running total at which it
    was accepted. *)
Fixpoint greedy_walk (max_credits : option Z) (running_total : Z)
    (ranked : list Candidate) : list (Candidate * Z) :=
  match ranked with
  | [] => []
  | c :: rest =>
      let fits :=
        match max_credits with
        | None => true
        | Some m => running_total + cred_of (meta c) <=? m
        end in
      if fits
      then (c, running_total)
             :: greedy_walk max_credits (running_total + cred_of (meta c)) rest
      else greedy_walk max_credits running_total rest
  end.

(** The record of a candidate accepted at running total [total]: the
    candidate's label, matched interests and explanation, with the SELECTED
    line as budget line. *)
Definition emit (max_credits : option Z) (total : Z) (item : Candidate) : CourseRec :=
  {| course := course_label item;
     matched_interests := c_matched_interests item;
     explain := set_budget_line (c_explain item)
                  (selected_line max_credits total (cred_of (meta item))) |}.

Definition sum_credits (l : list Candidate) : Z :=
  fold_right (fun c acc => cred_of (meta c) + acc) 0 l.

(** The ranking key as the specification words it: the count of matched
    interests, then minus the difficulty and minus the semester, a missing
    value counting as 999. *)
Definition spec_key (n_matched : nat) (m : Meta) : Z * Z * Z :=
  (Z.of_nat n_matched,
   - match difficulty m with Some d => d | None => 999 end,
   - match semester m with Some d => d | None => 999 end).

Definition rank_key (it : Candidate) : Z * Z * Z :=
  spec_key (length (c_matched_interests it)) (meta it).

(** [x] is ranked at or above [y]. *)
Definition ranks_above (x y : Candidate) : Prop :=
  Py.tuple3_leb (rank_key y) (rank_key x) = true.

(** Two candidates, two course records and two career records that agree
    on everything but the parts that follow the iteration order of a set:
    the order of the interest paths, and the paths of a career. *)
Definition same_candidate (x y : Candidate) : Prop :=
  course_uri x = course_uri y /\
  course_label x = course_label y /\
  c_matched_interests x = c_matched_interests y /\
  meta x = meta y /\
  score x = score y /\
  prereq_paths (c_explain x) = prereq_paths (c_explain y) /\
  constraint_checks (c_explain x) = constraint_checks (c_explain y) /\
  budget_line (c_explain x) = budget_line (c_explain y) /\
  Permutation (interest_paths (c_explain x)) (interest_paths (c_explain y)).

Definition same_course (r r' : CourseRec) : Prop :=
  course r = course r' /\
  matched_interests r = matched_interests r' /\
  prereq_paths (explain r) = prereq_paths (explain r') /\
  constraint_checks (explain r) = constraint_checks (explain r') /\
  budget_line (explain r) = budget_line (explain r') /\
  Permutation (interest_paths (explain r)) (interest_paths (explain r')).

Definition opt_rel {A B} (R : A -> B -> Prop) (a : option A) (b : option B) : Prop :=
  match a, b with
  | Some x, Some y => R x y
  | None, None => True
  | _, _ => False
  end.

Definition same_career (c c' : CareerRec) : Prop :=
  career c = career c' /\ matched_skills c = matched_skills c'.

(** The store respects the declared domains of [takesCourse] and
    [hasInterest]: only students carry them (the ingestion writes them for
    the rows of students.csv only, next to the student's type). *)
Definition domain_ok (g : Graph) : Prop :=
  forall s o,
    In (TRel s P.takesCourse o) g \/ In (TRel s P.hasInterest o) g ->
    In (TType s P.Student) g.

(** The candidates behind the returned course records. *)
Definition selected (O : Py.SetOrder) (g : Graph) (s : string) : list Candidate :=
  map fst (greedy_walk (max_credits g s) 0 (ranked O g s)).

(** A career matches a student when one of the skills it requires is an
    interest of the student or is taught by a course the student takes. *)
Definition career_matches (g : Graph) (s : URIRef) (car : URIRef) : bool :=
  existsb (fun sk =>
    Py.mem sk (objects g s P.hasInterest)
    || existsb (fun c => Py.mem sk (objects g c P.teachesSkill))
         (objects g s P.takesCourse))
    (objects g car P.requiresSkill).

Definition domain_okb (g : Graph) : bool :=
  forallb (fun t =>
    match t with
    | TRel s P.takesCourse _ | TRel s P.hasInterest _ =>
        Py.mem s (subjects g P.Student)
    | _ => true
    end) g.

(** The last character of a string. *)
Fixpoint last_char (s : string) : option ascii :=
  match s with
  | EmptyString => None
  | String c EmptyString => Some c
  | String _ s' => last_char s'
  end.

(** A set order in which sets iterate by ascending URI. *)
Lemma by_uri_perm l : Permutation (Py.sorted String.leb l) l.
Proof.
  induction l as [|x l IH]; simpl; [apply perm_nil|].
  eapply perm_trans; [|apply perm_skip, IH].
  generalize (Py.sorted String.leb l). intros l'. clear.
  induction l' as [|y l' IH]; simpl; [apply Permutation_refl|].
  destruct (x <=? y)%string; [apply Permutation_refl|].
  eapply perm_trans; [apply perm_skip, IH | apply perm_swap].
Defined.

Definition uri_order : Py.SetOrder :=
  {| Py.iter := Py.sorted String.leb; Py.iter_perm := by_uri_perm |}.

(* ================================================================== *)
(** * Stores used in the examples *)
(* ================================================================== *)

Module Ex.

Definition cs101 := S2A "CS101".
Definition cs201 := S2A "CS201".
Definition cs202 := S2A "CS202".
Definition cs300 := S2A "CS300".
Definition ml := S2A "ML".
Definition ai := S2A "AI".
Definition ada := S2A "Ada".

Definition course_rows (c : URIRef) (lab : string) (cred : Z) : list Triple :=
  [TType c P.Course; TStr c P.label lab; TInt c P.credits cred].

Definition skill_rows (c sk : URIRef) (lab : string) : list Triple :=
  [TType sk P.Skill; TStr sk P.label lab; TRel c P.teachesSkill sk].

(** Ada has taken CS101, is interested in ML and has 6 credits to spend;
    CS201 and CS202 both require CS101, carry 4 credits and teach ML. *)
Definition ada_rows : list Triple :=
  [TType ada P.Student; TStr ada P.label "Ada";
   TRel ada P.takesCourse cs101;
   TType ml P.Skill; TRel ada P.hasInterest ml;
   TInt ada P.maxCredits 6].

Definition ada_graph : Graph :=
  build (course_rows cs101 "CS101" 3
         ++ course_rows cs201 "CS201" 4
         ++ course_rows cs202 "CS202" 4
         ++ [TRel cs201 P.hasPrerequisite cs101;
             TRel cs202 P.hasPrerequisite cs101]
         ++ skill_rows cs201 ml "ML" ++ skill_rows cs202 ml "ML"
         ++ ada_rows)%list.

(** The record of CS201 for Ada. *)
Definition cs201_rec : CourseRec :=
  {| course := "CS201";
     matched_interests := ["ML"];
     explain :=
       {| interest_paths := ["Ada → hasInterest → ML ← teachesSkill ← CS201"];
          prereq_paths :=
            ["CS201 → hasPrerequisite → CS101 AND Ada → takesCourse → CS101"];
          constraint_checks :=
            ["semester: course=None vs target=None => OK (no/unknown constraint)";
             "difficulty: course=None vs max=None => OK (no/unknown constraint)";
             "track: course=None vs preferred=None => OK (no/unknown constraint)"];
          budget_line :=
            "credits: course=4, current_total=0 + 4 ≤ max=6 => SELECTED" |} |}.

(** The same triples, with the row of CS202 read before that of CS201. *)
Definition ada_graph_swapped : Graph :=
  build (course_rows cs101 "CS101" 3
         ++ course_rows cs202 "CS202" 4
         ++ course_rows cs201 "CS201" 4
         ++ [TRel cs201 P.hasPrerequisite cs101;
             TRel cs202 P.hasPrerequisite cs101]
         ++ skill_rows cs201 ml "ML" ++ skill_rows cs202 ml "ML"
         ++ ada_rows)%list.

(** Bob's budget is negative; the seminar he could take has no credits. *)
Definition bob := S2A "Bob".
Definition sem1 := S2A "SEM1".

Definition bob_graph : Graph :=
  build ([TType sem1 P.Course; TStr sem1 P.label "SEM1"]
         ++ skill_rows sem1 ml "ML"
         ++ [TType bob P.Student; TStr bob P.label "Bob";
             TRel bob P.hasInterest ml; TInt bob P.maxCredits (-1)])%list.

(** Two courses for the same interest: one of difficulty 1000, one whose
    difficulty is missing. *)
Definition cara := S2A "Cara".
Definition hard := S2A "HARD".
Definition open := S2A "OPEN".

Definition cara_graph : Graph :=
  build ([TType hard P.Course; TStr hard P.label "HARD";
          TInt hard P.difficulty 1000;
          TType open P.Course; TStr open P.label "OPEN"]
         ++ skill_rows hard ml "ML" ++ skill_rows open ml "ML"
         ++ [TType cara P.Student; TStr cara P.label "Cara";
             TRel cara P.hasInterest ml])%list.

(** Eve is interested in ML and AI, and CS300 teaches both. *)
Definition eve := S2A "Eve".

Definition eve_graph : Graph :=
  build (course_rows cs300 "CS300" 4
         ++ skill_rows cs300 ml "ML" ++ skill_rows cs300 ai "AI"
         ++ [TType eve P.Student; TStr eve P.label "Eve";
             TRel eve P.hasInterest ml; TRel eve P.hasInterest ai])%list.

(** Dan can take a course of difficulty 0 and a course of difficulty 5. *)
Definition dan := S2A "Dan".
Definition easy := S2A "EASY".
Definition mid := S2A "MID".

Definition dan_graph : Graph :=
  build ([TType easy P.Course; TStr easy P.label "EASY";
          TInt easy P.difficulty 0;
          TType mid P.Course; TStr mid P.label "MID";
          TInt mid P.difficulty 5]
         ++ skill_rows easy ml "ML" ++ skill_rows mid ml "ML"
         ++ [TType dan P.Student; TStr dan P.label "Dan";
             TRel dan P.hasInterest ml])%list.

(** Fay has taken CS9 and CS1, which both teach DB; the career DBA
    requires DB, which is not among Fay's interests. *)
Definition fay := S2A "Fay".
Definition cs9 := S2A "CS9".
Definition cs1 := S2A "CS1".
Definition db := S2A "DB".
Definition dba := S2A "DBA".

Definition fay_graph : Graph :=
  build (course_rows cs9 "CS9" 3 ++ course_rows cs1 "CS1" 3
         ++ skill_rows cs9 db "DB" ++ skill_rows cs1 db "DB"
         ++ [TType dba P.Career; TStr dba P.label "DBA";
             TType db P.Skill; TRel dba P.requiresSkill db;
             TType fay P.Student; TStr fay P.label "Fay";
             TRel fay P.takesCourse cs9; TRel fay P.takesCourse cs1])%list.

End Ex.

(* ================================================================== *)
(** * More Python string built-ins *)
(* ================================================================== *)

Module PyStr.

(** [s.replace(old, new)] for a non-empty [old]: the occurrences of [old]
    are replaced from left to right, without overlap.  [skip] counts the
    characters of a matched occurrence still to be dropped. *)
Fixpoint replace_go (old new : string) (skip : nat) (s : string) : string :=
  match s with
  | EmptyString => EmptyString
  | String c s' =>
      match skip with
      | S k => replace_go old new k s'
      | O =>
          if String.prefix old s
          then new ++ replace_go old new (String.length old - 1) s'
          else String c (replace_go old new 0 s')
      end
  end.

Definition replace (old new s : string) : string := replace_go old new 0 s.

(** [s.split(sep)] for a separator of one character. *)
Fixpoint split (sep : ascii) (s : string) : list string :=
  match s with
  | EmptyString => [EmptyString]
  | String c s' =>
      if Ascii.eqb c sep then EmptyString :: split sep s'
      else match split sep s' with
           | x :: xs => String c x :: xs
           | [] => [String c EmptyString]
           end
  end.

(** [c in s] for a character [c]. *)
Definition contains (c : ascii) (s : string) : bool :=
  existsb (Ascii.eqb c) (list_ascii_of_string s).

(** [s.endswith(suffix)]: some tail of [s] is [suffix]. *)
Fixpoint endswith (s suffix : string) : bool :=
  (s =? suffix)%string
  || match s with
     | EmptyString => false
     | String _ s' => endswith s' suffix
     end.

End PyStr.

Definition CR : ascii := Ascii.ascii_of_nat 13.
Definition LF : ascii := Ascii.ascii_of_nat 10.
Definition DQUOTE : ascii := Ascii.ascii_of_nat 34.
Definition BACKSLASH : ascii := Ascii.ascii_of_nat 92.

Definition str1 (c : ascii) : string := String c EmptyString.

(* ================================================================== *)
(** * list_students, get_profile and _js_str *)
(* ================================================================== *)

(** An entry [{"iri": ..., "label": ...}] of [list_students]. *)
Record StudentEntry := {
  iri : string;
  s_label : string
}.

Definition list_students (g : Graph) : list StudentEntry :=
  Py.sorted (Py.by_key s_label)
    (map (fun s => {| iri := s; s_label := iri_to_label g s |})
       (subjects g P.Student)).

Record Constraints := {
  c_target_semester : option Z;
  c_max_credits : option Z;
  c_max_difficulty : option Z;
  c_preferred_track : option string
}.

Record Profile := {
  taken : list string;
  interests : list string;
  constraints : Constraints
}.

Definition get_profile (g : Graph) (student_iri : string) : Profile :=
  let s := student_iri in
  let taken := map (iri_to_label g) (objects g s P.takesCourse) in
  let interests := map (iri_to_label g) (objects g s P.hasInterest) in
  let constraints :=
    {| c_target_semester := _get_int g s P.targetSemester;
       c_max_credits := _get_int g s P.maxCredits;
       c_max_difficulty := _get_int g s P.maxDifficulty;
       c_preferred_track := _get_str g s P.preferredTrack |} in
  {| taken := Py.sorted String.leb taken;
     interests := Py.sorted String.leb interests;
     constraints := constraints |}.

(** [_js_str]: a Python string as a double-quoted JS string literal. *)
Definition _js_str (s : string) : string :=
  let s := PyStr.replace (str1 BACKSLASH) (String BACKSLASH (str1 BACKSLASH)) s in
  let s := PyStr.replace (str1 DQUOTE) (String BACKSLASH (str1 DQUOTE)) s in
  let s := PyStr.replace (String CR (str1 LF)) (str1 LF) s in
  let s := PyStr.replace (str1 CR) (str1 LF) s in
  let s := PyStr.replace (str1 LF) (String BACKSLASH "n") s in
  str1 DQUOTE ++ s ++ str1 DQUOTE.

(** What a JS engine reads from the body of a double-quoted string literal
    whose only escapes are an escaped backslash, an escaped double quote and
    the escape of a line feed: [None] when the body holds a bare double
    quote, a line break, or another escape.  [pending] says that a
    backslash has just been read. *)
Fixpoint js_read (pending : bool) (body : string) : option string :=
  match body with
  | EmptyString => if pending then None else Some EmptyString
  | String c rest =>
      if pending then
        if Ascii.eqb c BACKSLASH then option_map (String BACKSLASH) (js_read false rest)
        else if Ascii.eqb c DQUOTE then option_map (String DQUOTE) (js_read false rest)
        else if Ascii.eqb c "n"%char then option_map (String LF) (js_read false rest)
        else None
      else
        if Ascii.eqb c BACKSLASH then js_read true rest
        else if Ascii.eqb c DQUOTE || Ascii.eqb c CR || Ascii.eqb c LF then None
        else option_map (String c) (js_read false rest)
  end.

(** Line breaks as [_js_str] normalises them: CR LF and CR become LF. *)
Definition unix_newlines (s : string) : string :=
  PyStr.replace (str1 CR) (str1 LF) (PyStr.replace (String CR (str1 LF)) (str1 LF) s).

(** A paper matches a student when it is related to one of the student's
    interests. *)
Definition paper_matches (g : Graph) (s : URIRef) (p : URIRef) : bool :=
  existsb (fun sk => Py.mem sk (objects g s P.hasInterest))
    (objects g p P.relatedTo).

(** [l] is [l'] with some elements left out, the others in place. *)
Inductive Subseq {A} : list A -> list A -> Prop :=
| Subseq_nil : Subseq [] []
| Subseq_keep x l l' : Subseq l l' -> Subseq (x :: l) (x :: l')
| Subseq_drop x l l' : Subseq l l' -> Subseq l (x :: l').

(** The hard constraints between a student's values and a course's, as
    [_constraint_checks] decides them: a check on a value missing on either
    side passes, and so does a track check with an empty track. *)
Definition constraints_hold
    (ts md : option Z) (pt : option string) (m : Meta) : Prop :=
  (forall t c, ts = Some t -> semester m = Some c -> c <= t) /\
  (forall x c, md = Some x -> difficulty m = Some c -> c <= x) /\
  (forall p c, pt = Some p -> track m = Some c -> p <> "" -> c <> "" -> c = p).

(** The order of the career records: more matched skills first, and among
    equal counts the smaller label first. *)
Definition career_before (a b : CareerRec) : Prop :=
  (length (matched_skills b) < length (matched_skills a))%nat \/
  (length (matched_skills a) = length (matched_skills b) /\
   (career a <=? career b)%string = true).

(** Each character replaced by a string. *)
Fixpoint expand (f : ascii -> string) (s : string) : string :=
  match s with
  | EmptyString => EmptyString
  | String c s' => f c ++ expand f s'
  end.

(** What [_js_str] writes for one character once line breaks are
    normalised. *)
Definition js_escape (c : ascii) : string :=
  if Ascii.eqb c BACKSLASH then String BACKSLASH (str1 BACKSLASH)
  else if Ascii.eqb c DQUOTE then String BACKSLASH (str1 DQUOTE)
  else if Ascii.eqb c LF then String BACKSLASH "n"
  else str1 c.

Definition crlf : string := String CR (str1 LF).

(** The escapes of the backslash and of the double quote. *)
Definition escape_quotes (c : ascii) : string :=
  if Ascii.eqb c BACKSLASH then String BACKSLASH (str1 BACKSLASH)
  else if Ascii.eqb c DQUOTE then String BACKSLASH (str1 DQUOTE)
  else str1 c.

(* ================================================================== *)
(** * CSV -> KG *)
(* ================================================================== *)

(** A row of [csv.DictReader] for a line that has a cell for every
    column: the cells by column name. *)
Definition Row := list (string * string).

(** [row[key]] ([None] is [KeyError]) and [row.get(key)] ([None] is
    Python's [None]). *)
Definition row_item (row : Row) (key : string) : option string :=
  option_map snd (find (fun kv => (fst kv =? key)%string) row).

(** [row.get(key, default)]. *)
Definition row_get (row : Row) (key default : string) : string :=
  match row_item row key with Some v => v | None => default end.

(** The content of the data directory: the rows [_read_csv] returns for
    each file, [None] for a file that does not exist. *)
Record Data := {
  courses_csv : option (list Row);
  prerequisites_csv : option (list Row);
  course_skills_csv : option (list Row);
  careers_csv : option (list Row);
  career_skills_csv : option (list Row);
  papers_csv : option (list Row);
  paper_skills_csv : option (list Row);
  students_csv : option (list Row)
}.

Section Ingestion.

(** [str.strip()] and [int(str)] ([None] is [ValueError]) are Python's. *)
Variable strip : string -> string.
Variable int : string -> option Z.

Definition _as_uri (local_id : string) : URIRef :=
  let safe := PyStr.replace " " "_" (strip local_id) in
  S2A safe.

(** The helpers of [build_graph_from_csv] give the triples they add. *)
Definition add_label (node : URIRef) (label : string) : list Triple :=
  [TStr node P.label label].

Definition add_int (node : URIRef) (prop : P.IntProp) (val : option string)
  : option (list Triple) :=
  match val with
  | None => Some []
  | Some v =>
      if (strip v =? "")%string then Some []
      else option_map (fun z => [TInt node prop z]) (int v)
  end.

Definition add_str (node : URIRef) (prop : P.StrProp) (val : option string)
  : list Triple :=
  match val with
  | None => []
  | Some v => if (strip v =? "")%string then [] else [TStr node prop v]
  end.

(** [[x.strip() for x in cell.split(sep) if x.strip()]]. *)
Definition stripped_items (sep : ascii) (cell : string) : list string :=
  map strip (filter (fun x => negb (strip x =? "")%string) (PyStr.split sep cell)).

(** [row.get(key) or ""]. *)
Definition row_cell (row : Row) (key : string) : string :=
  match row_item row key with Some v => v | None => "" end.

(** The bodies of the eight loops: the triples a row adds, in order, or
    [None] when the row raises ([KeyError], [ValueError]). *)
Definition course_row (row : Row) : option (list Triple) :=
  match row_item row "course_id" with
  | None => None
  | Some id =>
      let c := _as_uri id in
      match add_int c P.credits (row_item row "credits"),
            add_int c P.semester (row_item row "semester"),
            add_int c P.difficulty (row_item row "difficulty") with
      | Some cr, Some se, Some di =>
          Some ([TType c P.Course] ++ add_label c (row_get row "label" id)
                  ++ cr ++ se ++ di
                  ++ add_str c P.track (row_item row "track"))%list
      | _, _, _ => None
      end
  end.

Definition prerequisite_row (row : Row) : option (list Triple) :=
  match row_item row "course_id", row_item row "prereq_id" with
  | Some c, Some p => Some [TRel (_as_uri c) P.hasPrerequisite (_as_uri p)]
  | _, _ => None
  end.

Definition course_skill_row (row : Row) : option (list Triple) :=
  match row_item row "skill_id", row_item row "course_id" with
  | Some id, Some c =>
      let sk := _as_uri id in
      Some ([TType sk P.Skill] ++ add_label sk (row_get row "skill_label" id)
              ++ [TRel (_as_uri c) P.teachesSkill sk])%list
  | _, _ => None
  end.

Definition career_row (row : Row) : option (list Triple) :=
  match row_item row "career_id" with
  | Some id =>
      let car := _as_uri id in
      Some ([TType car P.Career] ++ add_label car (row_get row "label" id))%list
  | None => None
  end.

Definition career_skill_row (row : Row) : option (list Triple) :=
  match row_item row "career_id", row_item row "skill_id" with
  | Some c, Some id =>
      let sk := _as_uri id in
      Some [TType sk P.Skill; TRel (_as_uri c) P.requiresSkill sk]
  | _, _ => None
  end.

Definition paper_row (row : Row) : option (list Triple) :=
  match row_item row "paper_id" with
  | Some id =>
      let p := _as_uri id in
      Some ([TType p P.ResearchPaper] ++ add_label p (row_get row "label" id))%list
  | None => None
  end.

Definition paper_skill_row (row : Row) : option (list Triple) :=
  match row_item row "paper_id", row_item row "skill_id" with
  | Some p, Some id =>
      let sk := _as_uri id in
      Some [TType sk P.Skill; TRel (_as_uri p) P.relatedTo sk]
  | _, _ => None
  end.

(** The taken courses of a student row: the cell is split at [;], or at
    [,] when that gives a single item with a comma in it. *)
Definition taken_ids (row : Row) : list string :=
  let taken_cell := strip (row_cell row "taken_courses") in
  let taken := stripped_items ";" taken_cell in
  match taken with
  | [only] => if PyStr.contains "," only then stripped_items "," only else taken
  | _ => taken
  end.

Definition interest_ids (row : Row) : list string :=
  stripped_items ";" (row_cell row "interests").

Definition student_row (row : Row) : option (list Triple) :=
  match row_item row "student_id" with
  | None => None
  | Some id =>
      let st := _as_uri id in
      match add_int st P.targetSemester (row_item row "target_semester"),
            add_int st P.maxCredits (row_item row "max_credits"),
            add_int st P.maxDifficulty (row_item row "max_difficulty") with
      | Some ts, Some mc, Some md =>
          Some ([TType st P.Student] ++ add_label st (row_get row "label" id)
                  ++ map (fun c_id => TRel st P.takesCourse (_as_uri c_id))
                       (taken_ids row)
                  ++ flat_map (fun sk_id =>
                       [TType (_as_uri sk_id) P.Skill;
                        TRel st P.hasInterest (_as_uri sk_id)])
                       (interest_ids row)
                  ++ ts ++ mc ++ md
                  ++ add_str st P.preferredTrack (row_item row "preferred_track"))%list
      | _, _, _ => None
      end
  end.

(** One [for row in _read_csv(...)] loop: a missing file or a row that
    raises aborts; otherwise the triples of the rows are added in order. *)
Definition load_rows (body : Row -> option (list Triple))
    (rows : list Row) (state : option Graph) : option Graph :=
  fold_left (fun state row =>
    match state with
    | Some g => option_map (fun ts => fold_left add ts g) (body row)
    | None => None
    end) rows state.

Definition load (body : Row -> option (list Triple)) (file : option (list Row))
    (g : Graph) : option Graph :=
  match file with
  | None => None
  | Some rows => load_rows body rows (Some g)
  end.

Definition run_stages
    (l : list ((Row -> option (list Triple)) * option (list Row)))
    (state : option Graph) : option Graph :=
  fold_left (fun state stage =>
    match state with
    | Some g => load (fst stage) (snd stage) g
    | None => None
    end) l state.

(** The loops of [build_graph_from_csv], in the order of the source. *)
Definition stages (data : Data) : list ((Row -> option (list Triple)) * option (list Row)) :=
  [(course_row, courses_csv data);
   (prerequisite_row, prerequisites_csv data);
   (course_skill_row, course_skills_csv data);
   (career_row, careers_csv data);
   (career_skill_row, career_skills_csv data);
   (paper_row, papers_csv data);
   (paper_skill_row, paper_skills_csv data);
   (student_row, students_csv data)].

(** [build_graph_from_csv]: the store of the data triples, or [None] when
    the construction raises.  The schema triples written first (the classes
    and properties with their [rdf:type], [rdfs:domain] and [rdfs:range])
    lie outside the vocabulary of [Triple]; no lookup made by the helpers or
    by [recommend] matches them. *)
Definition build_graph_from_csv (data : Data) : option Graph :=
  run_stages (stages data) (Some []).

End Ingestion.

(** A stage goes through when its file exists and none of its rows
    raises. *)
Definition stage_ok (stage : (Row -> option (list Triple)) * option (list Row)) : Prop :=
  exists rows, snd stage = Some rows /\
               forall row, In row rows -> fst stage row <> None.

(** [ts] are the triples that a row of the stage adds. *)
Definition stage_adds (stage : (Row -> option (list Triple)) * option (list Row))
    (ts : list Triple) : Prop :=
  exists rows row, snd stage = Some rows /\ In row rows /\ fst stage row = Some ts.

(** An IRI of the namespace without a space. *)
Definition iri_ok (u : URIRef) : Prop :=
  String.prefix BASE u = true /\ PyStr.contains " " u = false.

Definition triple_ok (t : Triple) : Prop :=
  match t with
  | TType s _ | TInt s _ _ | TStr s _ _ => iri_ok s
  | TRel s _ o => iri_ok s /\ iri_ok o
  end.

(** A set of triples that carries what its edges and types call for: the
    subject of [takesCourse] and [hasInterest] is a Student, the object of
    the four skill relations is a Skill, and every typed node but a Skill
    has a label. *)
Definition is_skill_rel (p : P.Rel) : bool :=
  match p with
  | P.hasInterest | P.teachesSkill | P.requiresSkill | P.relatedTo => true
  | _ => false
  end.

Definition is_student_rel (p : P.Rel) : bool :=
  match p with
  | P.takesCourse | P.hasInterest => true
  | _ => false
  end.

Definition supported (ts : list Triple) : Prop :=
  (forall s p o, In (TRel s p o) ts ->
     (is_student_rel p = true -> In (TType s P.Student) ts) /\
     (is_skill_rel p = true -> In (TType o P.Skill) ts)) /\
  (forall s c, In (TType s c) ts -> c <> P.Skill ->
     exists lab, In (TStr s P.label lab) ts).

(** [ts] holds attribute triples of the node [n] only. *)
Definition attrs_of (n : URIRef) (ts : list Triple) : Prop :=
  forall t, In t ts ->
    match t with
    | TInt s _ _ | TStr s _ _ => s = n
    | _ => False
    end.

(** Sample built-ins for the examples: [strip] for ASCII white space and
    [int] for an optional sign followed by decimal digits. *)
Module Sample.

Definition is_space (c : ascii) : bool :=
  let n := nat_of_ascii c in
  ((9 <=? n) && (n <=? 13) || (n =? 32))%nat.

Fixpoint lstrip (s : string) : string :=
  match s with
  | String c s' => if is_space c then lstrip s' else s
  | EmptyString => EmptyString
  end.

Fixpoint rstrip (s : string) : string :=
  match s with
  | String c s' =>
      match rstrip s' with
      | EmptyString => if is_space c then EmptyString else String c EmptyString
      | r => String c r
      end
  | EmptyString => EmptyString
  end.

Definition strip (s : string) : string := rstrip (lstrip s).

Fixpoint digits (acc : Z) (s : string) : option Z :=
  match s with
  | EmptyString => Some acc
  | String c s' =>
      let n := nat_of_ascii c in
      if ((48 <=? n) && (n <=? 57))%nat
      then digits (10 * acc + Z.of_nat (n - 48)) s'
      else None
  end.

Definition int (s : string) : option Z :=
  match strip s with
  | EmptyString => None
  | String "-" EmptyString => None
  | String "-" d => option_map Z.opp (digits 0 d)
  | d => digits 0 d
  end.

(** A small data directory: two courses, one career, one paper, one
    student. *)
Definition row (cells : list (string * string)) : Row := cells.

Definition data : Data :=
  {| courses_csv := Some
       [row [("course_id", "CS101"); ("label", "Intro"); ("credits", "3");
             ("semester", "1"); ("difficulty", "1"); ("track", "core")];
        row [("course_id", "CS 201"); ("label", "Machine Learning");
             ("credits", "4"); ("semester", ""); ("difficulty", " ");
             ("track", "")]];
     prerequisites_csv := Some
       [row [("course_id", "CS 201"); ("prereq_id", "CS101")]];
     course_skills_csv := Some
       [row [("course_id", "CS 201"); ("skill_id", "ML"); ("skill_label", "ML")]];
     careers_csv := Some [row [("career_id", "DS"); ("label", "Data Scientist")]];
     career_skills_csv := Some [row [("career_id", "DS"); ("skill_id", "ML")]];
     papers_csv := Some [row [("paper_id", "P1"); ("label", "On Learning")]];
     paper_skills_csv := Some [row [("paper_id", "P1"); ("skill_id", "ML")]];
     students_csv := Some
       [row [("student_id", "ada"); ("label", "Ada");
             ("taken_courses", "CS101"); ("interests", "ML; Stats");
             ("target_semester", ""); ("max_credits", "6");
             ("max_difficulty", ""); ("preferred_track", "")]] |}.

(** The same directory with a credits cell that is not a number. *)
Definition bad_data : Data :=
  {| courses_csv := Some
       [row [("course_id", "CS101"); ("label", "Intro"); ("credits", "three")]];
     prerequisites_csv := prerequisites_csv data;
     course_skills_csv := course_skills_csv data;
     careers_csv := careers_csv data;
     career_skills_csv := career_skills_csv data;
     papers_csv := papers_csv data;
     paper_skills_csv := paper_skills_csv data;
     students_csv := students_csv data |}.

Definition graph : Graph :=
  match build_graph_from_csv strip int data with
  | Some g => g
  | None => []
  end.

End Sample.

(* ================================================================== *)
(** * Facts about the built-ins *)
(* ================================================================== *)

Lemma mem_In x l : Py.mem x l = true <-> In x l.
Proof.
  unfold Py.mem. rewrite existsb_exists. split.
  - intros (y & Hy & E). apply String.eqb_eq in E. now subst.
  - intros H. exists x. split; [assumption | apply String.eqb_refl].
Qed.

Lemma mem_false x l : Py.mem x l = false <-> ~ In x l.
Proof.
  rewrite <- mem_In. destruct (Py.mem x l); split; congruence.
Qed.

Lemma iter_In O l x : In x (Py.iter O l) <-> In x l.
Proof.
  split; apply Permutation_in;
    [apply Py.iter_perm | apply Permutation_sym, Py.iter_perm].
Qed.

Lemma iter_nil O : Py.iter O [] = [].
Proof. apply Permutation_nil, Permutation_sym, Py.iter_perm. Qed.

Lemma iter_one O x : Py.iter O [x] = [x].
Proof. apply Permutation_length_1_inv, Permutation_sym, Py.iter_perm. Qed.

Lemma iter_length O l : length (Py.iter O l) = length l.
Proof. apply Permutation_length, Py.iter_perm. Qed.

Lemma set_In O l x : In x (Py.set O l) <-> In x l.
Proof. unfold Py.set. rewrite iter_In. apply nodup_In. Qed.

Lemma intersection_In O a b x :
  In x (Py.intersection O a b) <-> In x a /\ In x b.
Proof.
  unfold Py.intersection. rewrite iter_In, filter_In, mem_In. tauto.
Qed.

Lemma union_In O a b x : In x (Py.union O a b) <-> In x a \/ In x b.
Proof. unfold Py.union. rewrite set_In. apply in_app_iff. Qed.

Lemma issubset_spec a b :
  Py.issubset a b = true <-> forall x, In x a -> In x b.
Proof.
  unfold Py.issubset. rewrite forallb_forall.
  split; intros H x Hx; [apply mem_In | apply mem_In]; auto.
Qed.

Section Sorting.

Context {A : Type} (before : A -> A -> bool).

Lemma insert_perm x l : Permutation (Py.insert before x l) (x :: l).
Proof.
  induction l as [|y l IH]; simpl.
  - apply Permutation_refl.
  - destruct (before x y).
    + apply Permutation_refl.
    + eapply perm_trans; [apply perm_skip, IH | apply perm_swap].
Qed.

Lemma sorted_perm l : Permutation (Py.sorted before l) l.
Proof.
  induction l as [|x l IH]; simpl.
  - apply perm_nil.
  - eapply perm_trans; [apply insert_perm | apply perm_skip, IH].
Qed.

Lemma sorted_In l x : In x (Py.sorted before l) <-> In x l.
Proof.
  split; apply Permutation_in;
    [apply sorted_perm | apply Permutation_sym, sorted_perm].
Qed.

Lemma sorted_length l : length (Py.sorted before l) = length l.
Proof. apply Permutation_length, sorted_perm. Qed.

Hypothesis before_total : forall x y, before x y = true \/ before y x = true.
Hypothesis before_trans :
  forall x y z, before x y = true -> before y z = true -> before x z = true.

Let R (x y : A) : Prop := before x y = true.

Lemma insert_sorted x l :
  StronglySorted R l -> StronglySorted R (Py.insert before x l).
Proof.
  induction 1 as [|y l Hl IH Hy]; simpl.
  - constructor; constructor.
  - destruct (before x y) eqn:E.
    + constructor; [constructor; assumption|].
      constructor; [exact E|].
      rewrite Forall_forall in *. intros z Hz.
      eapply before_trans; [exact E | apply Hy, Hz].
    + constructor; [exact IH|].
      rewrite Forall_forall in *. intros z Hz.
      apply (Permutation_in _ (insert_perm x l)) in Hz.
      destruct Hz as [<- | Hz]; [|apply Hy, Hz].
      destruct (before_total x y) as [H | H]; [congruence | exact H].
Qed.

Lemma sorted_sorted l : StronglySorted R (Py.sorted before l).
Proof.
  induction l as [|x l IH]; simpl; [constructor | now apply insert_sorted].
Qed.

End Sorting.

Lemma tuple3_leb_spec a1 a2 a3 b1 b2 b3 :
  Py.tuple3_leb (a1, a2, a3) (b1, b2, b3) = true <->
  a1 < b1 \/ (a1 = b1 /\ (a2 < b2 \/ (a2 = b2 /\ a3 <= b3))).
Proof.
  unfold Py.tuple3_leb.
  rewrite !orb_true_iff, !andb_true_iff, !orb_true_iff, !andb_true_iff.
  rewrite !Z.ltb_lt, !Z.eqb_eq, Z.leb_le. tauto.
Qed.

Lemma tuple3_leb_total a b :
  Py.tuple3_leb a b = true \/ Py.tuple3_leb b a = true.
Proof.
  destruct a as [[a1 a2] a3], b as [[b1 b2] b3].
  rewrite !tuple3_leb_spec. lia.
Qed.

Lemma tuple3_leb_trans a b c :
  Py.tuple3_leb a b = true -> Py.tuple3_leb b c = true ->
  Py.tuple3_leb a c = true.
Proof.
  destruct a as [[a1 a2] a3], b as [[b1 b2] b3], c as [[c1 c2] c3].
  rewrite !tuple3_leb_spec. lia.
Qed.

(* ================================================================== *)
(** * Facts about the store *)
(* ================================================================== *)

Lemma subjects_In g c s : In s (subjects g c) <-> In (TType s c) g.
Proof.
  unfold subjects. rewrite in_flat_map. split.
  - intros (t & Ht & Hs). destruct t; try contradiction.
    unfold P.Class_eqb in Hs. destruct (P.Class_dec c c0); [|contradiction].
    destruct Hs as [<- | []]. now subst.
  - intros H. exists (TType s c). split; [assumption|].
    unfold P.Class_eqb. destruct (P.Class_dec c c); [now left | congruence].
Qed.

Lemma objects_In g s p o : In o (objects g s p) <-> In (TRel s p o) g.
Proof.
  unfold objects. rewrite in_flat_map. split.
  - intros (t & Ht & Hs). destruct t; try contradiction.
    unfold P.Rel_eqb in Hs.
    destruct (String.eqb_spec s s0); [|contradiction].
    destruct (P.Rel_dec p p0); [|contradiction].
    destruct Hs as [<- | []]. now subst.
  - intros H. exists (TRel s p o). split; [assumption|].
    unfold P.Rel_eqb. rewrite String.eqb_refl.
    destruct (P.Rel_dec p p); [now left | congruence].
Qed.

Lemma add_In g t u : In u (add g t) <-> In u g \/ u = t.
Proof.
  unfold add. destruct (in_dec Triple_dec t g) as [Hin | Hin].
  - split; [tauto | intros [H | ->]; assumption].
  - rewrite in_app_iff. simpl. intuition congruence.
Qed.

Lemma add_NoDup g t : NoDup g -> NoDup (add g t).
Proof.
  intros H. unfold add. destruct (in_dec Triple_dec t g) as [Hin | Hin].
  - exact H.
  - apply NoDup_app; [exact H | constructor; [intros [] | constructor] |].
    intros x Hx [<- | []]. contradiction.
Qed.

(** Adding a triple twice is adding it once. *)
Lemma add_idempotent g t : add (add g t) t = add g t.
Proof.
  unfold add at 1. destruct (in_dec Triple_dec t (add g t)) as [H | H].
  - reflexivity.
  - exfalso. apply H, add_In. now right.
Qed.

(* ================================================================== *)
(** * Facts about the course pipeline *)
(* ================================================================== *)

(** What a passed constraint check says about the course and the student. *)
Lemma constraint_checks_ok ts md pt mc tot m :
  fst (fst (_constraint_checks ts md pt mc tot m)) = true ->
  (forall t c, ts = Some t -> semester m = Some c -> c <= t) /\
  (forall x c, md = Some x -> difficulty m = Some c -> c <= x) /\
  (forall p c, pt = Some p -> track m = Some c -> p <> "" -> c <> "" -> c = p).
Proof.
  unfold _constraint_checks.
  destruct ts as [t|], (semester m) as [cs|]; simpl;
    destruct md as [x|], (difficulty m) as [cd|]; simpl;
    destruct pt as [p|], (track m) as [ct|]; simpl;
    repeat match goal with
    | |- context [?a <=? ?b] => destruct (Z.leb_spec a b); simpl
    | |- context [(?a =? ?b)%string] => destruct (String.eqb_spec a b); simpl
    end;
    intros Hok; try discriminate Hok;
    (split; [|split]); intros; try discriminate;
    repeat match goal with H : Some _ = Some _ |- _ => inversion H; clear H end;
    subst; try lia; try congruence.
Qed.

Section CoursePipeline.

Variable O : Py.SetOrder.
Variable g : Graph.
Variable s : string.

(** The candidate built for a course, and why the course got that far. *)
Lemma candidate_inv c it :
  candidate O g s c = Some it ->
  ~ In c (objects g s P.takesCourse) /\
  (exists sk, In sk (objects g c P.teachesSkill) /\ In sk (objects g s P.hasInterest)) /\
  (forall p, In p (objects g c P.hasPrerequisite) -> In p (objects g s P.takesCourse)) /\
  fst (fst (_constraint_checks (target_semester g s) (max_difficulty g s)
              (preferred_track g s) (max_credits g s) 0 (_course_meta g c))) = true /\
  course_uri it = c /\
  course_label it = iri_to_label g c /\
  meta it = _course_meta g c /\
  c_matched_interests it =
    Py.sorted String.leb
      (map (iri_to_label g)
         (Py.intersection O (Py.set O (objects g c P.teachesSkill))
            (interest_skills O g s))) /\
  score it =
    (Z.of_nat (length (Py.intersection O (Py.set O (objects g c P.teachesSkill))
                         (interest_skills O g s))),
     - Py.or_int (difficulty (_course_meta g c)) 999,
     - Py.or_int (semester (_course_meta g c)) 999) /\
  interest_paths (c_explain it) =
    map (fun sk => interest_path g s (iri_to_label g c) (iri_to_label g sk))
      (Py.intersection O (Py.set O (objects g c P.teachesSkill))
         (interest_skills O g s)) /\
  prereq_paths (c_explain it) =
    map (fun p => prereq_path g s (iri_to_label g c) (iri_to_label g p))
      (Py.sorted (Py.by_key (iri_to_label g))
         (Py.set O (objects g c P.hasPrerequisite))).
Proof.
  unfold candidate.
  destruct (Py.mem c (taken_courses O g s)) eqn:Htaken; [discriminate|].
  destruct (Py.intersection O _ _) as [|sk0 matched] eqn:Hm; [discriminate|].
  destruct (Py.issubset _ _) eqn:Hsub; [|discriminate]. simpl negb. cbv iota.
  destruct (fst (fst (_constraint_checks _ _ _ _ _ _))) eqn:Hok; [|discriminate].
  simpl negb. cbv iota. intros E. inversion E; subst it; clear E. simpl.
  repeat split; try reflexivity.
  - apply mem_false in Htaken. intros H. apply Htaken.
    unfold taken_courses. now apply set_In.
  - exists sk0.
    assert (Hin : In sk0 (Py.intersection O (Py.set O (objects g c P.teachesSkill))
                            (interest_skills O g s)))
      by (rewrite Hm; now left).
    apply intersection_In in Hin. destruct Hin as [H1 H2].
    apply set_In in H1. unfold interest_skills in H2. apply set_In in H2.
    now split.
  - intros p Hp. rewrite issubset_spec in Hsub.
    specialize (Hsub p). rewrite set_In in Hsub.
    unfold taken_courses in Hsub. rewrite set_In in Hsub. auto.
Qed.

Lemma candidates_In it :
  In it (candidates O g s) <->
  exists c, In c (subjects g P.Course) /\ candidate O g s c = Some it.
Proof.
  unfold candidates. rewrite in_flat_map. split.
  - intros (c & Hc & Hit). exists c. split; [assumption|].
    destruct (candidate O g s c); [|contradiction].
    destruct Hit as [<- | []]. reflexivity.
  - intros (c & Hc & E). exists c. split; [assumption|].
    rewrite E. now left.
Qed.

Lemma ranked_perm : Permutation (ranked O g s) (candidates O g s).
Proof. apply sorted_perm. Qed.

Lemma ranked_In it : In it (ranked O g s) <-> In it (candidates O g s).
Proof. apply sorted_In. Qed.

End CoursePipeline.

(** One iteration either appends the record of the item, with the
    SELECTED line, or leaves the state alone. *)
Lemma budget_step_cases m acc t c :
  budget_step m (acc, t) c =
  if match m with Some m0 => t + cred_of (meta c) <=? m0 | None => true end
  then ((acc ++ [emit m t c])%list, t + cred_of (meta c))
  else (acc, t).
Proof.
  unfold budget_step, budget_decision, emit.
  destruct m as [m0|]; [|reflexivity].
  destruct (t + cred_of (meta c) <=? m0); reflexivity.
Qed.

(** The budget loop computes the greedy walk: from any state it appends
    the records of the walk's selection and adds their credits. *)
Lemma budget_fold m l : forall acc t,
  fold_left (budget_step m) l (acc, t) =
  ((acc ++ map (fun p => emit m (snd p) (fst p)) (greedy_walk m t l))%list,
   t + sum_credits (map fst (greedy_walk m t l))).
Proof.
  induction l as [|c l IH]; intros acc t.
  - simpl. rewrite app_nil_r. f_equal. lia.
  - cbn [fold_left]. rewrite budget_step_cases. simpl greedy_walk.
    destruct (match m with Some m0 => t + cred_of (meta c) <=? m0 | None => true end).
    + rewrite IH. rewrite <- app_assoc. simpl. f_equal. lia.
    + apply IH.
Qed.

Lemma budget_loop_walk m l :
  budget_loop m l =
  (map (fun p => emit m (snd p) (fst p)) (greedy_walk m 0 l),
   sum_credits (map fst (greedy_walk m 0 l))).
Proof. unfold budget_loop. now rewrite budget_fold. Qed.

Lemma greedy_walk_In m l : forall t p,
  In p (greedy_walk m t l) -> In (fst p) l.
Proof.
  induction l as [|c l IH]; intros t p; simpl; [tauto|].
  destruct (match m with Some m0 => t + cred_of (meta c) <=? m0 | None => true end).
  - intros [<- | H]; [now left | right; eauto].
  - intros H. right. eauto.
Qed.

Lemma rec_courses_walk O g s :
  courses (recommend O g s) =
  map (fun p => emit (max_credits g s) (snd p) (fst p))
    (greedy_walk (max_credits g s) 0 (ranked O g s)).
Proof.
  simpl. unfold rec_courses. now rewrite budget_loop_walk.
Qed.

(** An explanation path depends on the skill only through its label. *)
Lemma matched_labels_In O g c s l :
  In l (Py.sorted String.leb
          (map (iri_to_label g)
             (Py.intersection O (Py.set O (objects g c P.teachesSkill))
                (interest_skills O g s)))) <->
  exists sk, In sk (objects g c P.teachesSkill) /\
             In sk (objects g s P.hasInterest) /\ l = iri_to_label g sk.
Proof.
  rewrite sorted_In, in_map_iff. split.
  - intros (sk & <- & H). apply intersection_In in H. destruct H as [H1 H2].
    apply set_In in H1. unfold interest_skills in H2. apply set_In in H2.
    now exists sk.
  - intros (sk & H1 & H2 & ->). exists sk. split; [reflexivity|].
    apply intersection_In. split; [now apply set_In|].
    unfold interest_skills. now apply set_In.
Qed.

(* ================================================================== *)
(** * Course inclusion *)
(* ================================================================== *)

(** C1. Every recommended course comes from a Course node that the student
    has not taken, whose prerequisites the student has all taken, that
    teaches at least one skill the student is interested in (the labels of
    those skills are the record's [matched_interests]), and that meets every
    hard constraint known on both sides: its semester is at most the target
    semester, its difficulty at most the maximal difficulty, and its track
    is the preferred track.  A track is known when it is present and not
    empty ([add_str] never stores a blank value). *)
Theorem course_inclusion O g s r :
  In r (courses (recommend O g s)) ->
  exists c,
    In c (subjects g P.Course) /\
    course r = iri_to_label g c /\
    ~ In c (objects g s P.takesCourse) /\
    (forall p, In p (objects g c P.hasPrerequisite) -> In p (objects g s P.takesCourse)) /\
    (exists sk, In sk (objects g c P.teachesSkill) /\ In sk (objects g s P.hasInterest)) /\
    (forall l, In l (matched_interests r) <->
               exists sk, In sk (objects g c P.teachesSkill) /\
                          In sk (objects g s P.hasInterest) /\ l = iri_to_label g sk) /\
    (forall cs ts, _get_int g c P.semester = Some cs ->
                   _get_int g s P.targetSemester = Some ts -> cs <= ts) /\
    (forall cd md, _get_int g c P.difficulty = Some cd ->
                   _get_int g s P.maxDifficulty = Some md -> cd <= md) /\
    (forall ct pt, _get_str g c P.track = Some ct ->
                   _get_str g s P.preferredTrack = Some pt ->
                   ct <> "" -> pt <> "" -> ct = pt).
Proof.
  rewrite rec_courses_walk. intros Hr.
  apply in_map_iff in Hr. destruct Hr as ([it t] & <- & Hp).
  apply greedy_walk_In in Hp. simpl in Hp.
  apply ranked_In, candidates_In in Hp. destruct Hp as (c & Hc & Hcand).
  apply candidate_inv in Hcand.
  destruct Hcand as (Hnt & Hsk & Hpre & Hok & _ & Hlab & _ & Hmi & _).
  apply constraint_checks_ok in Hok. destruct Hok as (Hs & Hd & Ht).
  exists c. simpl.
  split; [exact Hc|]. split; [exact Hlab|]. split; [exact Hnt|].
  split; [exact Hpre|]. split; [exact Hsk|].
  split; [intros l; rewrite Hmi; apply matched_labels_In|].
  split; [|split].
  - intros cs ts H1 H2. eapply Hs; [exact H2 | exact H1].
  - intros cd md H1 H2. eapply Hd; [exact H2 | exact H1].
  - intros ct pt H1 H2 N1 N2. eapply Ht; [exact H2 | exact H1 | exact N2 | exact N1].
Qed.

(* ================================================================== *)
(** * The credit budget *)
(* ================================================================== *)

Lemma walk_total_le m l : forall t,
  t <= m -> t + sum_credits (map fst (greedy_walk (Some m) t l)) <= m.
Proof.
  induction l as [|c l IH]; intros t Ht; simpl; [lia|].
  destruct (Z.leb_spec (t + cred_of (meta c)) m) as [Hfit | Hno]; simpl.
  - specialize (IH (t + cred_of (meta c)) Hfit). lia.
  - apply IH, Ht.
Qed.

Lemma walk_nonempty_le m l : forall t,
  greedy_walk (Some m) t l <> [] ->
  t + sum_credits (map fst (greedy_walk (Some m) t l)) <= m.
Proof.
  induction l as [|c l IH]; intros t; simpl; [congruence|].
  destruct (Z.leb_spec (t + cred_of (meta c)) m) as [Hfit | Hno]; simpl.
  - intros _. pose proof (walk_total_le m l (t + cred_of (meta c)) Hfit). lia.
  - apply IH.
Qed.

(** Where a candidate stands in the walk: the total it was accepted at is
    the sum of the credits accepted before it, and it fitted the budget. *)
Lemma walk_split m l : forall t wpre it t' wpost,
  greedy_walk m t l = (wpre ++ (it, t') :: wpost)%list ->
  t' = t + sum_credits (map fst wpre) /\
  (forall x, m = Some x -> t' + cred_of (meta it) <= x) /\
  In it l.
Proof.
  induction l as [|c l IH]; intros t wpre it t' wpost; simpl.
  - destruct wpre; discriminate.
  - destruct (match m with Some m0 => t + cred_of (meta c) <=? m0 | None => true end)
      eqn:Hfit.
    + destruct wpre as [|p wpre]; simpl; intros E; inversion E; subst.
      * split; [lia|]. split; [|now left].
        intros x ->. now apply Z.leb_le.
      * apply IH in H1. destruct H1 as (-> & Hb & Hin). simpl.
        split; [lia|]. split; [exact Hb | now right].
    + intros E. apply IH in E. destruct E as (-> & Hb & Hin).
      split; [reflexivity|]. split; [exact Hb | now right].
Qed.

(** C2, amended. For a student whose [maxCredits] is set, the returned
    courses are exactly the records of the single-pass greedy walk over the
    score-ranked candidates (a candidate is taken iff the running total plus
    its credits stays within the budget, and the walk always moves on), and
    the credits of the selected courses sum to at most [maxCredits] as soon
    as the budget is not negative or some course is selected. *)
Theorem budget_invariant O g s m :
  max_credits g s = Some m ->
  courses (recommend O g s) =
    map (fun p => emit (Some m) (snd p) (fst p))
      (greedy_walk (Some m) 0 (ranked O g s)) /\
  (0 <= m \/ courses (recommend O g s) <> [] ->
   sum_credits (selected O g s) <= m).
Proof.
  intros Hm. rewrite rec_courses_walk. unfold selected. rewrite Hm.
  split; [reflexivity|].
  intros [Hpos | Hne].
  - pose proof (walk_total_le m (ranked O g s) 0 Hpos). lia.
  - assert (Hw : greedy_walk (Some m) 0 (ranked O g s) <> []).
    { intros E. apply Hne. now rewrite E. }
    pose proof (walk_nonempty_le m (ranked O g s) 0 Hw). lia.
Qed.

(* ================================================================== *)
(** * The budget line *)
(* ================================================================== *)

Lemma last_char_some c s : exists d, last_char (String c s) = Some d.
Proof.
  revert c. induction s as [|e s IH]; intros c.
  - now exists c.
  - destruct (IH e) as (d & Hd). exists d. exact Hd.
Qed.

Lemma last_char_cons c s :
  last_char (String c s) =
  match last_char s with Some d => Some d | None => Some c end.
Proof.
  destruct s as [|e s]; [reflexivity|].
  destruct (last_char_some e s) as (d & Hd).
  change (last_char (String c (String e s))) with (last_char (String e s)).
  now rewrite Hd.
Qed.

Lemma last_char_app a b :
  last_char (a ++ b) =
  match last_char b with Some c => Some c | None => last_char a end.
Proof.
  induction a as [|c a IH].
  - simpl. now destruct (last_char b).
  - change (String c a ++ b) with (String c (a ++ b)).
    rewrite !last_char_cons, IH.
    destruct (last_char b), (last_char a); reflexivity.
Qed.

Lemma selected_line_last mc t c :
  last_char (selected_line mc t c) = Some "D"%char.
Proof.
  unfold selected_line. destruct mc; rewrite !last_char_app; reflexivity.
Qed.

Lemma tentative_line_last mc t c :
  last_char (tentative_budget_line mc t c) <> Some "D"%char.
Proof.
  unfold tentative_budget_line.
  destruct mc; rewrite !last_char_app; simpl; discriminate.
Qed.

(** C7. Every returned course carries the budget line of the selection
    pass: it is the SELECTED line for the course's credits and the running
    total at the moment the course was accepted, which is the sum of the
    credits of the courses returned before it; the course did fit the
    budget there; and the line is never a tentative line of the constraint
    checks. *)
Theorem budget_line_final O g s pre r post :
  courses (recommend O g s) = (pre ++ r :: post)%list ->
  exists wpre it,
    pre = map (fun p => emit (max_credits g s) (snd p) (fst p)) wpre /\
    In it (ranked O g s) /\
    r = emit (max_credits g s) (sum_credits (map fst wpre)) it /\
    budget_line (explain r) =
      selected_line (max_credits g s) (sum_credits (map fst wpre))
        (cred_of (meta it)) /\
    (forall m, max_credits g s = Some m ->
               sum_credits (map fst wpre) + cred_of (meta it) <= m) /\
    (forall mc tot c, budget_line (explain r) <> tentative_budget_line mc tot c).
Proof.
  rewrite rec_courses_walk. intros E.
  apply map_eq_app in E. destruct E as (wpre & w2 & Hw & Hpre & H2).
  apply map_eq_cons in H2. destruct H2 as ([it t] & wpost & -> & Hr & _).
  apply walk_split in Hw. destruct Hw as (Ht & Hfit & Hin).
  simpl in Ht, Hr. subst t.
  exists wpre, it.
  split; [now symmetry|]. split; [exact Hin|]. split; [now symmetry|].
  subst r. simpl.
  split; [reflexivity|]. split; [exact Hfit|].
  intros mc tot c Heq.
  apply (tentative_line_last mc tot c). rewrite <- Heq.
  apply selected_line_last.
Qed.

(* ================================================================== *)
(** * Courses without credits *)
(* ================================================================== *)

Lemma ranked_meta O g s it :
  In it (ranked O g s) -> meta it = _course_meta g (course_uri it).
Proof.
  intros H. apply ranked_In, candidates_In in H. destruct H as (c & _ & H).
  apply candidate_inv in H.
  destruct H as (_ & _ & _ & _ & -> & _ & -> & _). reflexivity.
Qed.

Lemma budget_loop_app m l1 l2 :
  budget_loop m (l1 ++ l2) = fold_left (budget_step m) l2 (budget_loop m l1).
Proof. unfold budget_loop. apply fold_left_app. Qed.

Lemma budget_loop_total_le m l : 0 <= m -> snd (budget_loop (Some m) l) <= m.
Proof.
  intros Hm. rewrite budget_loop_walk. simpl.
  pose proof (walk_total_le m l 0 Hm). lia.
Qed.

(** C10, amended. A candidate whose course has no [credits] value, or has
    credits 0, counts for 0 credits; when [maxCredits] is unset or not
    negative, the budget loop selects it whenever it reaches it, leaves the
    running total unchanged, and its record is among the returned courses. *)
Theorem zero_credit_selected O g s pre it post :
  ranked O g s = (pre ++ it :: post)%list ->
  _get_int g (course_uri it) P.credits = None \/
  _get_int g (course_uri it) P.credits = Some 0 ->
  (forall m, max_credits g s = Some m -> 0 <= m) ->
  let st := budget_loop (max_credits g s) pre in
  cred_of (meta it) = 0 /\
  budget_step (max_credits g s) st it =
    ((fst st ++ [emit (max_credits g s) (snd st) it])%list, snd st) /\
  In (emit (max_credits g s) (snd st) it) (courses (recommend O g s)).
Proof.
  intros Hr Hcred Hmax st.
  assert (Hin : In it (ranked O g s)).
  { rewrite Hr. apply in_elt. }
  assert (Hc : cred_of (meta it) = 0).
  { rewrite (ranked_meta O g s it Hin). unfold cred_of, _course_meta. simpl.
    destruct Hcred as [-> | ->]; reflexivity. }
  assert (Hstep : budget_step (max_credits g s) st it =
            ((fst st ++ [emit (max_credits g s) (snd st) it])%list, snd st)).
  { destruct st as [recs total] eqn:Hst. rewrite budget_step_cases, Hc. simpl.
    destruct (max_credits g s) as [m|] eqn:Hm.
    - assert (Hle : total <= m).
      { pose proof (budget_loop_total_le m pre (Hmax m eq_refl)) as H.
        unfold st in Hst. rewrite Hst in H. exact H. }
      rewrite Z.add_0_r. destruct (Z.leb_spec total m); [reflexivity | lia].
    - rewrite Z.add_0_r. reflexivity. }
  split; [exact Hc|]. split; [exact Hstep|].
  simpl. unfold rec_courses. rewrite Hr.
  change (pre ++ it :: post)%list with (pre ++ [it] ++ post)%list.
  rewrite budget_loop_app. fold st. simpl fold_left. rewrite Hstep.
  rewrite budget_fold. simpl. apply in_or_app. left. apply in_or_app. right.
  now left.
Qed.

(* ================================================================== *)
(** * Ranking *)
(* ================================================================== *)

Lemma StronglySorted_impl {A} (R R' : A -> A -> Prop) l :
  (forall x y, In x l -> In y l -> R x y -> R' x y) ->
  StronglySorted R l -> StronglySorted R' l.
Proof.
  intros Himp Hs. induction Hs as [|x l Hl IH Hx]; constructor.
  - apply IH. intros a b Ha Hb. apply Himp; now right.
  - rewrite Forall_forall in *. intros y Hy.
    apply Himp; [now left | now right | auto].
Qed.

Lemma StronglySorted_pair {A} (R : A -> A -> Prop) pre x mid y post :
  StronglySorted R (pre ++ x :: mid ++ y :: post) -> R x y.
Proof.
  induction pre as [|a pre IH]; simpl; intros H; inversion H; subst.
  - rewrite Forall_forall in H3. apply H3, in_elt.
  - now apply IH.
Qed.

Lemma or_int_present d : d <> 0 -> Py.or_int (Some d) 999 = d.
Proof.
  intros Hd. unfold Py.or_int. destruct (Z.eqb_spec d 0); [contradiction | reflexivity].
Qed.

(** The score of a candidate is the specification's key unless a
    difficulty or a semester is 0. *)
Lemma score_rank_key O g s it :
  In it (candidates O g s) ->
  difficulty (meta it) <> Some 0 ->
  semester (meta it) <> Some 0 ->
  score it = rank_key it.
Proof.
  intros Hin Hd Hs. apply candidates_In in Hin. destruct Hin as (c & _ & Hc).
  apply candidate_inv in Hc.
  destruct Hc as (_ & _ & _ & _ & _ & _ & Hm & Hmi & Hsc & _).
  rewrite Hsc. unfold rank_key, spec_key. rewrite Hmi, Hm in *.
  rewrite sorted_length, length_map.
  f_equal; [f_equal|].
  - destruct (difficulty (_course_meta g c)) as [d|]; [|reflexivity].
    rewrite or_int_present; [reflexivity | congruence].
  - destruct (semester (_course_meta g c)) as [d|]; [|reflexivity].
    rewrite or_int_present; [reflexivity | congruence].
Qed.

Lemma ranked_by_score O g s :
  StronglySorted (fun x y => Py.tuple3_leb (score y) (score x) = true)
    (ranked O g s).
Proof.
  unfold ranked.
  apply (sorted_sorted (fun x y => Py.tuple3_leb (score y) (score x))).
  - intros x y. destruct (tuple3_leb_total (score x) (score y)); auto.
  - intros x y z Hxy Hyz. eapply tuple3_leb_trans; eassumption.
Qed.

(** C4, amended. When no surviving candidate has difficulty 0 or semester
    0, the surviving candidates are ranked in descending order of the tuple
    (count of matched interests, minus difficulty, minus semester), a
    missing difficulty or semester counting as 999: a course with a missing
    difficulty follows the courses of the same interest count whose
    difficulty is below 999, and precedes no course of that count unless its
    difficulty is 999 or more; likewise for the semester. *)
Theorem ranking_sorted O g s :
  (forall it, In it (candidates O g s) ->
              difficulty (meta it) <> Some 0 /\ semester (meta it) <> Some 0) ->
  Permutation (ranked O g s) (candidates O g s) /\
  StronglySorted ranks_above (ranked O g s) /\
  (forall pre x mid y post d,
     ranked O g s = (pre ++ x :: mid ++ y :: post)%list ->
     length (c_matched_interests x) = length (c_matched_interests y) ->
     difficulty (meta x) = None -> difficulty (meta y) = Some d -> 999 <= d) /\
  (forall pre x mid y post d,
     ranked O g s = (pre ++ x :: mid ++ y :: post)%list ->
     length (c_matched_interests x) = length (c_matched_interests y) ->
     difficulty (meta x) = difficulty (meta y) ->
     semester (meta x) = None -> semester (meta y) = Some d -> 999 <= d).
Proof.
  intros Hnz.
  assert (Hkey : forall it, In it (ranked O g s) -> score it = rank_key it).
  { intros it Hin. apply ranked_In in Hin.
    destruct (Hnz it Hin) as [Hd Hs].
    now apply (score_rank_key O g s it Hin). }
  assert (Hsorted : StronglySorted ranks_above (ranked O g s)).
  { apply (StronglySorted_impl
             (fun x y => Py.tuple3_leb (score y) (score x) = true));
      [|apply ranked_by_score].
    intros x y Hx Hy. unfold ranks_above.
    now rewrite (Hkey x Hx), (Hkey y Hy). }
  split; [apply ranked_perm|]. split; [exact Hsorted|]. split.
  - intros pre x mid y post d Hr Hlen Hx Hy. rewrite Hr in Hsorted.
    apply StronglySorted_pair in Hsorted. unfold ranks_above, rank_key, spec_key in Hsorted.
    rewrite Hx, Hy, Hlen in Hsorted. apply tuple3_leb_spec in Hsorted. lia.
  - intros pre x mid y post d Hr Hlen Hdiff Hx Hy. rewrite Hr in Hsorted.
    apply StronglySorted_pair in Hsorted. unfold ranks_above, rank_key, spec_key in Hsorted.
    rewrite Hx, Hy, Hlen, Hdiff in Hsorted. apply tuple3_leb_spec in Hsorted. lia.
Qed.

(* ================================================================== *)
(** * Careers *)
(* ================================================================== *)

Lemma nil_iff_no_In {A} (l : list A) : l = [] <-> forall x, ~ In x l.
Proof.
  split; [intros -> x [] |].
  destruct l as [|a l]; [reflexivity|]. intros H. exfalso. apply (H a). now left.
Qed.

Lemma career_matches_spec g s car :
  career_matches g s car = true <->
  exists sk, In sk (objects g car P.requiresSkill) /\
    (In sk (objects g s P.hasInterest) \/
     exists c, In c (objects g s P.takesCourse) /\ In sk (objects g c P.teachesSkill)).
Proof.
  unfold career_matches. rewrite existsb_exists. split.
  - intros (sk & Hsk & H). exists sk. split; [assumption|].
    apply orb_true_iff in H. destruct H as [H | H].
    + left. now apply mem_In.
    + right. apply existsb_exists in H. destruct H as (c & Hc & H).
      exists c. split; [assumption | now apply mem_In].
  - intros (sk & Hsk & H). exists sk. split; [assumption|].
    apply orb_true_iff. destruct H as [H | (c & Hc & H)].
    + left. now apply mem_In.
    + right. apply existsb_exists. exists c. split; [assumption | now apply mem_In].
Qed.

Lemma available_In O g s sk :
  In sk (available_skills O g s) <->
  In sk (objects g s P.hasInterest) \/
  exists c, In c (objects g s P.takesCourse) /\ In sk (objects g c P.teachesSkill).
Proof.
  unfold available_skills, gained_skills, interest_skills, taken_courses.
  rewrite union_In, !set_In, in_flat_map.
  split; (intros [H | (c & Hc & H)]; [now left | right; exists c]).
  - rewrite set_In in Hc. now split.
  - rewrite set_In. now split.
Qed.

Lemma career_entry_matches O g s car :
  career_matches g s car = true ->
  exists r, career_entry O g s car = Some r /\ career r = iri_to_label g car.
Proof.
  intros H. apply career_matches_spec in H. destruct H as (sk & Hreq & Hav).
  unfold career_entry.
  destruct (Py.intersection O _ _) as [|x l] eqn:E.
  - exfalso. apply nil_iff_no_In with (x := sk) in E. apply E.
    apply intersection_In. split; [now apply set_In | now apply available_In].
  - eexists. split; reflexivity.
Qed.

Lemma career_entry_no_match O g s car :
  career_matches g s car = false -> career_entry O g s car = None.
Proof.
  intros H. unfold career_entry.
  destruct (Py.intersection O _ _) as [|x l] eqn:E; [reflexivity|].
  exfalso.
  assert (Hin : In x (Py.intersection O (Py.set O (objects g car P.requiresSkill))
                        (available_skills O g s))) by (rewrite E; now left).
  apply intersection_In in Hin. destruct Hin as [H1 H2].
  apply set_In in H1. apply available_In in H2.
  assert (career_matches g s car = true)
    by (apply career_matches_spec; now exists x).
  congruence.
Qed.

Lemma career_entries_labels O g s l :
  map career
    (flat_map (fun car =>
       match career_entry O g s car with Some r => [r] | None => [] end) l) =
  map (iri_to_label g) (filter (career_matches g s) l).
Proof.
  induction l as [|car l IH]; simpl; [reflexivity|].
  rewrite map_app, IH.
  destruct (career_matches g s car) eqn:E.
  - destruct (career_entry_matches O g s car E) as (r & -> & Hr).
    simpl. now rewrite Hr.
  - now rewrite (career_entry_no_match O g s car E).
Qed.

(** C8. The careers returned for a student are, one record per node and in
    the order of the records, exactly the Career nodes whose required
    skills meet the student's interests or the skills taught by the courses
    the student takes. *)
Theorem career_iff O g s :
  exists cs,
    map career (careers (recommend O g s)) = map (iri_to_label g) cs /\
    Permutation cs (filter (career_matches g s) (subjects g P.Career)) /\
    (forall car,
       In car cs <->
       In car (subjects g P.Career) /\
       exists sk, In sk (objects g car P.requiresSkill) /\
         (In sk (objects g s P.hasInterest) \/
          exists c, In c (objects g s P.takesCourse) /\
                    In sk (objects g c P.teachesSkill))).
Proof.
  simpl. unfold rec_careers.
  match goal with
  | |- context [Py.sorted ?cmp ?E] =>
      pose proof (Permutation_map career (sorted_perm cmp E)) as Hp
  end.
  rewrite career_entries_labels in Hp.
  apply Permutation_map_inv in Hp. destruct Hp as (cs & Hcs & Hperm).
  exists cs. split; [exact Hcs|]. split; [now apply Permutation_sym|].
  intros car. rewrite <- career_matches_spec, <- filter_In.
  split; apply Permutation_in; [now apply Permutation_sym | assumption].
Qed.

(* ================================================================== *)
(** * Unknown students *)
(* ================================================================== *)

Lemma flat_map_nil {A B} (f : A -> list B) l :
  (forall x, In x l -> f x = []) -> flat_map f l = [].
Proof.
  induction l as [|a l IH]; simpl; intros H; [reflexivity|].
  rewrite (H a) by now left. apply IH. intros x Hx. apply H. now right.
Qed.

Lemma set_nil O : Py.set O [] = [].
Proof. unfold Py.set. simpl. apply iter_nil. Qed.

Lemma intersection_nil_r O a : Py.intersection O a [] = [].
Proof.
  apply nil_iff_no_In. intros x H. apply intersection_In in H. tauto.
Qed.

(** A node without [takesCourse] and [hasInterest] edges gets nothing. *)
Lemma no_edges_empty O g s :
  objects g s P.takesCourse = [] ->
  objects g s P.hasInterest = [] ->
  recommend O g s = {| courses := []; careers := []; papers := [] |}.
Proof.
  intros Ht Hi.
  assert (Htaken : taken_courses O g s = [])
    by (unfold taken_courses, s_node; rewrite Ht; apply set_nil).
  assert (Hint : interest_skills O g s = [])
    by (unfold interest_skills, s_node; rewrite Hi; apply set_nil).
  assert (Hav : available_skills O g s = []).
  { unfold available_skills, gained_skills. rewrite Hint, Htaken. simpl.
    rewrite set_nil. unfold Py.union. simpl. apply set_nil. }
  unfold recommend. f_equal.
  - unfold rec_courses, ranked, candidates.
    rewrite flat_map_nil; [reflexivity|].
    intros c _. unfold candidate. rewrite Htaken, Hint. simpl.
    now rewrite intersection_nil_r.
  - unfold rec_careers. rewrite flat_map_nil; [reflexivity|].
    intros c _. unfold career_entry. rewrite Hav.
    now rewrite intersection_nil_r.
  - unfold rec_papers. rewrite flat_map_nil; [reflexivity|].
    intros c _. unfold paper_entry. rewrite Hint.
    now rewrite intersection_nil_r.
Qed.

Lemma domain_okb_sound g : domain_okb g = true -> domain_ok g.
Proof.
  unfold domain_okb, domain_ok. rewrite forallb_forall. intros H s o Hin.
  apply subjects_In, mem_In.
  destruct Hin as [Hin | Hin]; exact (H _ Hin).
Qed.

(** C9. In a store that keeps [takesCourse] and [hasInterest] to students,
    an id that is not a student of the store gets the empty recommendation:
    no courses, no careers, no papers.  [recommend] is a total function of
    the store and the id, so nothing is raised. *)
Theorem unknown_student_empty O g s :
  domain_ok g ->
  ~ In s (subjects g P.Student) ->
  recommend O g s = {| courses := []; careers := []; papers := [] |}.
Proof.
  intros Hdom Hs.
  apply no_edges_empty; apply nil_iff_no_In; intros o Ho;
    apply objects_In in Ho; apply Hs, subjects_In, (Hdom s o); auto.
Qed.

(* ================================================================== *)
(** * What does not depend on the iteration order of sets *)
(* ================================================================== *)

Lemma leb_lt_or_eq a b :
  (a <=? b)%string = true <-> String_as_OT.lt a b \/ a = b.
Proof.
  unfold String.leb. pose proof (String_as_OT.compare_spec a b) as H.
  change (String_as_OT.compare a b) with (a ?= b)%string in H.
  destruct H as [H | H | H]; unfold String_as_OT.eq in *.
  - split; auto.
  - split; auto.
  - split; [discriminate|]. intros [H' | ->]; exfalso.
    + apply (StrictOrder_Irreflexive a).
      now apply (StrictOrder_Transitive a b a).
    + now apply (StrictOrder_Irreflexive b).
Qed.

Lemma leb_trans a b c :
  (a <=? b)%string = true -> (b <=? c)%string = true -> (a <=? c)%string = true.
Proof.
  rewrite !leb_lt_or_eq. intros [H1 | ->] [H2 | ->]; auto.
  left. now apply (StrictOrder_Transitive a b c).
Qed.

(** A sorted list is determined by its elements. *)
Lemma sorted_unique {A} (R : A -> A -> Prop) :
  (forall x y, R x y -> R y x -> x = y) ->
  forall l l', StronglySorted R l -> StronglySorted R l' ->
               Permutation l l' -> l = l'.
Proof.
  intros Hanti. induction l as [|x l IH]; intros l' Hl Hl' Hp.
  - apply Permutation_nil in Hp. now subst.
  - destruct l' as [|y l'];
      [apply Permutation_sym, Permutation_nil in Hp; discriminate|].
    inversion Hl as [|? ? Hl1 Hx]; inversion Hl' as [|? ? Hl1' Hy]; subst.
    rewrite Forall_forall in Hx, Hy.
    assert (Exy : x = y).
    { assert (Hin1 : In x (y :: l'))
        by (apply (Permutation_in _ Hp); now left).
      assert (Hin2 : In y (x :: l))
        by (apply (Permutation_in _ (Permutation_sym Hp)); now left).
      destruct Hin1 as [-> | Hin1]; [reflexivity|].
      destruct Hin2 as [<- | Hin2]; [reflexivity|].
      apply Hanti; auto. }
    subst y. f_equal. apply IH; auto.
    now apply Permutation_cons_inv in Hp.
Qed.

Lemma sorted_strings_sorted l :
  StronglySorted (fun a b => (a <=? b)%string = true) (Py.sorted String.leb l).
Proof. apply sorted_sorted; [apply String.leb_total | apply leb_trans]. Qed.

(** Sorting strings forgets the order they came in. *)
Lemma sorted_strings_perm l l' :
  Permutation l l' -> Py.sorted String.leb l = Py.sorted String.leb l'.
Proof.
  intros Hp.
  apply (sorted_unique (fun a b => (a <=? b)%string = true)).
  - apply String.leb_antisym.
  - apply sorted_strings_sorted.
  - apply sorted_strings_sorted.
  - eapply perm_trans; [apply sorted_perm|].
    eapply perm_trans; [exact Hp | apply Permutation_sym, sorted_perm].
Qed.

(** Sorting by a key and reading the keys is sorting the keys. *)
Lemma map_sorted_by_key {A} (key : A -> string) l :
  map key (Py.sorted (Py.by_key key) l) = Py.sorted String.leb (map key l).
Proof.
  induction l as [|x l IH]; simpl; [reflexivity|].
  rewrite <- IH. generalize (Py.sorted (Py.by_key key) l). intros l0.
  induction l0 as [|y l0 IH0]; simpl; [reflexivity|].
  unfold Py.by_key at 1. destruct (key x <=? key y)%string; simpl; [reflexivity|].
  now rewrite IH0.
Qed.

Lemma keys_sorted_perm {A} (key : A -> string) l l' :
  Permutation l l' ->
  map key (Py.sorted (Py.by_key key) l) = map key (Py.sorted (Py.by_key key) l').
Proof.
  intros Hp. rewrite !map_sorted_by_key.
  apply sorted_strings_perm, Permutation_map, Hp.
Qed.

Lemma filter_perm_ext {A} (f f' : A -> bool) l l' :
  (forall x, f x = f' x) -> Permutation l l' ->
  Permutation (filter f l) (filter f' l').
Proof.
  intros Hext Hp. rewrite <- (filter_ext f f' Hext l').
  induction Hp as [|x l l' Hp IH|x y l|l l' l'' H1 IH1 H2 IH2]; simpl.
  - apply perm_nil.
  - destruct (f x); [apply perm_skip|]; exact IH.
  - destruct (f x), (f y); try apply Permutation_refl. apply perm_swap.
  - eapply perm_trans; eassumption.
Qed.

Lemma mem_ext x b b' :
  (forall y, In y b <-> In y b') -> Py.mem x b = Py.mem x b'.
Proof.
  intros H. destruct (Py.mem x b) eqn:E1, (Py.mem x b') eqn:E2; try reflexivity.
  - apply mem_In, H, mem_In in E1. congruence.
  - apply mem_In, H, mem_In in E2. congruence.
Qed.

Lemma set_perm O O' l : Permutation (Py.set O l) (Py.set O' l).
Proof.
  unfold Py.set. eapply perm_trans; [apply Py.iter_perm|].
  apply Permutation_sym, Py.iter_perm.
Qed.

Lemma set_same O O' l x : In x (Py.set O l) <-> In x (Py.set O' l).
Proof. now rewrite !set_In. Qed.

Lemma intersection_perm O O' a a' b b' :
  Permutation a a' -> (forall y, In y b <-> In y b') ->
  Permutation (Py.intersection O a b) (Py.intersection O' a' b').
Proof.
  intros Ha Hb. unfold Py.intersection.
  eapply perm_trans; [apply Py.iter_perm|].
  eapply perm_trans; [|apply Permutation_sym, Py.iter_perm].
  apply filter_perm_ext; [|exact Ha]. intros x. now apply mem_ext.
Qed.

Lemma issubset_ext a a' b b' :
  Permutation a a' -> (forall y, In y b <-> In y b') ->
  Py.issubset a b = Py.issubset a' b'.
Proof.
  intros Ha Hb.
  assert (H : Py.issubset a b = true <-> Py.issubset a' b' = true).
  { rewrite !issubset_spec. split; intros H x Hx.
    - apply Hb, H. apply (Permutation_in _ (Permutation_sym Ha)), Hx.
    - apply Hb, H. apply (Permutation_in _ Ha), Hx. }
  destruct (Py.issubset a b), (Py.issubset a' b'); try reflexivity.
  - symmetry. now apply H.
  - now apply H.
Qed.

Lemma map_key_eq {A B} (key : A -> string) (F : string -> B) l l' :
  map key l = map key l' ->
  map (fun x => F (key x)) l = map (fun x => F (key x)) l'.
Proof. intros H. rewrite <- !(map_map key F). now rewrite H. Qed.

Lemma insert_Forall2 {A B} (R : A -> B -> Prop) before before' :
  (forall a a' b b', R a a' -> R b b' -> before a b = before' a' b') ->
  forall x x' l l', R x x' -> Forall2 R l l' ->
    Forall2 R (Py.insert before x l) (Py.insert before' x' l').
Proof.
  intros Hc x x' l l' Hx Hl. induction Hl as [|y y' l l' Hy Hl IH]; simpl.
  - constructor; [assumption | constructor].
  - rewrite <- (Hc x x' y y' Hx Hy). destruct (before x y).
    + constructor; [assumption|]. constructor; assumption.
    + constructor; assumption.
Qed.

Lemma sorted_Forall2 {A B} (R : A -> B -> Prop) before before' :
  (forall a a' b b', R a a' -> R b b' -> before a b = before' a' b') ->
  forall l l', Forall2 R l l' ->
    Forall2 R (Py.sorted before l) (Py.sorted before' l').
Proof.
  intros Hc l l' Hl. induction Hl; simpl; [constructor|].
  now apply insert_Forall2.
Qed.

Lemma flat_map_opt_Forall2 {A B C} (R : B -> C -> Prop)
    (f : A -> option B) (f' : A -> option C) l :
  (forall x, opt_rel R (f x) (f' x)) ->
  Forall2 R
    (flat_map (fun x => match f x with Some r => [r] | None => [] end) l)
    (flat_map (fun x => match f' x with Some r => [r] | None => [] end) l).
Proof.
  intros H. induction l as [|a l IH]; simpl; [constructor|].
  specialize (H a). destruct (f a), (f' a); simpl in *; try contradiction.
  - constructor; assumption.
  - exact IH.
Qed.

Section OrderIndependence.

Variables O O' : Py.SetOrder.
Variable g : Graph.
Variable s : string.

Lemma taken_same x : In x (taken_courses O g s) <-> In x (taken_courses O' g s).
Proof. apply set_same. Qed.

Lemma interest_same x :
  In x (interest_skills O g s) <-> In x (interest_skills O' g s).
Proof. apply set_same. Qed.

Lemma available_same x :
  In x (available_skills O g s) <-> In x (available_skills O' g s).
Proof. now rewrite !available_In. Qed.

Lemma candidate_same c :
  opt_rel same_candidate (candidate O g s c) (candidate O' g s c).
Proof.
  unfold candidate.
  rewrite (mem_ext c _ _ taken_same).
  destruct (Py.mem c (taken_courses O' g s)); [exact I|].
  pose proof (intersection_perm O O' _ _ _ _
                (set_perm O O' (objects g c P.teachesSkill)) interest_same) as Hm.
  destruct (Py.intersection O _ _) as [|a m];
    destruct (Py.intersection O' _ _) as [|a' m'].
  - exact I.
  - apply Permutation_nil in Hm. discriminate Hm.
  - apply Permutation_sym, Permutation_nil in Hm. discriminate Hm.
  - rewrite (issubset_ext _ _ _ _
               (set_perm O O' (objects g c P.hasPrerequisite)) taken_same).
    destruct (Py.issubset _ _); [|exact I]. cbn [negb].
    destruct (fst (fst (_constraint_checks _ _ _ _ _ _))); [|exact I]. cbn [negb].
    unfold opt_rel, same_candidate. cbn [course_uri course_label
      c_matched_interests meta score c_explain interest_paths prereq_paths
      constraint_checks budget_line].
    split; [reflexivity|]. split; [reflexivity|].
    split; [apply sorted_strings_perm, Permutation_map, Hm|].
    split; [reflexivity|].
    split; [now rewrite (Permutation_length Hm)|].
    split.
    { apply (map_key_eq (iri_to_label g)
               (fun l => prereq_path g s (iri_to_label g c) l)).
      apply keys_sorted_perm, set_perm. }
    split; [reflexivity|]. split; [reflexivity|].
    apply Permutation_map, Hm.
Qed.

Lemma ranked_same : Forall2 same_candidate (ranked O g s) (ranked O' g s).
Proof.
  unfold ranked. apply sorted_Forall2.
  - intros a a' b b' Ha Hb.
    destruct Ha as (_ & _ & _ & _ & -> & _), Hb as (_ & _ & _ & _ & -> & _).
    reflexivity.
  - unfold candidates. apply flat_map_opt_Forall2, candidate_same.
Qed.

Lemma emit_same m t x y : same_candidate x y -> same_course (emit m t x) (emit m t y).
Proof.
  intros (_ & Hl & Hmi & Hm & _ & Hp & Hc & _ & Hi).
  unfold same_course, emit. simpl. rewrite Hl, Hmi, Hm, Hp, Hc. auto 10.
Qed.

Lemma budget_same m l l' :
  Forall2 same_candidate l l' ->
  forall acc acc' t, Forall2 same_course acc acc' ->
    Forall2 same_course (fst (fold_left (budget_step m) l (acc, t)))
                        (fst (fold_left (budget_step m) l' (acc', t))).
Proof.
  induction 1 as [|x y l l' Hxy Hl IH]; intros acc acc' t Hacc; [exact Hacc|].
  cbn [fold_left]. rewrite !budget_step_cases.
  assert (Hm : meta x = meta y) by (destruct Hxy as (_ & _ & _ & H & _); exact H).
  rewrite Hm.
  destruct (match m with Some m0 => t + cred_of (meta y) <=? m0 | None => true end).
  - apply IH. apply Forall2_app; [exact Hacc|].
    constructor; [now apply emit_same | constructor].
  - now apply IH.
Qed.

Lemma career_entry_same car :
  opt_rel same_career (career_entry O g s car) (career_entry O' g s car).
Proof.
  unfold career_entry.
  pose proof (intersection_perm O O' _ _ _ _
                (set_perm O O' (objects g car P.requiresSkill)) available_same) as Hm.
  destruct (Py.intersection O _ _) as [|a m];
    destruct (Py.intersection O' _ _) as [|a' m'].
  - exact I.
  - apply Permutation_nil in Hm. discriminate Hm.
  - apply Permutation_sym, Permutation_nil in Hm. discriminate Hm.
  - unfold opt_rel, same_career. cbn [career matched_skills].
    split; [reflexivity|]. apply sorted_strings_perm, Permutation_map, Hm.
Qed.

Lemma paper_entry_same p : paper_entry O g s p = paper_entry O' g s p.
Proof.
  unfold paper_entry.
  pose proof (intersection_perm O O' _ _ _ _
                (set_perm O O' (objects g p P.relatedTo)) interest_same) as Hm.
  destruct (Py.intersection O _ _) as [|a m];
    destruct (Py.intersection O' _ _) as [|a' m'].
  - reflexivity.
  - apply Permutation_nil in Hm. discriminate Hm.
  - apply Permutation_sym, Permutation_nil in Hm. discriminate Hm.
  - do 2 f_equal.
    apply (map_key_eq (iri_to_label g)
             (fun l => student_label g s ++ " → hasInterest → " ++ l
                         ++ " ← relatedTo ← " ++ iri_to_label g p)).
    apply keys_sorted_perm, Hm.
Qed.

(** X18. Whatever the iteration order of sets, [recommend] returns the same
    courses in the same order, with the same matched interests,
    prerequisite paths, constraint checks and budget lines, and the same
    interest paths up to their order; the same careers in the same order
    with the same matched skills; and the same papers. *)
Lemma recommend_stable_parts :
  Forall2 same_course (courses (recommend O g s)) (courses (recommend O' g s)) /\
  Forall2 same_career (careers (recommend O g s)) (careers (recommend O' g s)) /\
  papers (recommend O g s) = papers (recommend O' g s).
Proof.
  split; [|split]; simpl.
  - unfold rec_courses, budget_loop.
    apply budget_same; [apply ranked_same | constructor].
  - unfold rec_careers. apply sorted_Forall2.
    + intros a a' b b' [Ha1 Ha2] [Hb1 Hb2]. unfold career_key.
      now rewrite Ha1, Ha2, Hb1, Hb2.
    + apply flat_map_opt_Forall2, career_entry_same.
  - unfold rec_papers. f_equal. apply flat_map_ext. intros p.
    now rewrite paper_entry_same.
Qed.

End OrderIndependence.

(** X19. The lists next to the interest paths are sorted by label: the matched
    interests are, and the prerequisite paths are the paths of the
    prerequisite labels in ascending order. *)
Lemma sibling_lists_sorted O g s r :
  In r (courses (recommend O g s)) ->
  StronglySorted (fun a b => (a <=? b)%string = true) (matched_interests r) /\
  exists labels,
    StronglySorted (fun a b => (a <=? b)%string = true) labels /\
    prereq_paths (explain r) = map (prereq_path g s (course r)) labels.
Proof.
  rewrite rec_courses_walk. intros Hr.
  apply in_map_iff in Hr. destruct Hr as ([it t] & <- & Hp).
  apply greedy_walk_In in Hp. simpl in Hp.
  apply ranked_In, candidates_In in Hp. destruct Hp as (c & _ & Hcand).
  apply candidate_inv in Hcand.
  destruct Hcand as (_ & _ & _ & _ & _ & Hlab & _ & Hmi & _ & _ & Hpp).
  simpl. rewrite Hmi, Hpp, Hlab. split; [apply sorted_strings_sorted|].
  exists (map (iri_to_label g)
            (Py.sorted (Py.by_key (iri_to_label g))
               (Py.set O (objects g c P.hasPrerequisite)))).
  split; [rewrite map_sorted_by_key; apply sorted_strings_sorted|].
  now rewrite map_map.
Qed.

(* ================================================================== *)
(** * The scenario of Ada *)
(* ================================================================== *)

(** A set with at most one element iterates in one way only. *)
Ltac iter_small O :=
  repeat match goal with
  | |- context [Py.iter O ?l] =>
      lazymatch l with
      | context [O] => fail
      | _ =>
          let l' := eval vm_compute in l in
          lazymatch l' with
          | [] =>
              change (Py.iter O l) with (Py.iter O (@nil string));
              rewrite (iter_nil O)
          | [?x] =>
              change (Py.iter O l) with (Py.iter O [x]);
              rewrite (iter_one O x)
          end
      end
  end.

Lemma ada_sets O :
  taken_courses O Ex.ada_graph Ex.ada = [Ex.cs101] /\
  interest_skills O Ex.ada_graph Ex.ada = [Ex.ml].
Proof.
  unfold taken_courses, interest_skills, Py.set. iter_small O.
  split; reflexivity.
Qed.

Lemma ada_candidates O :
  candidates O Ex.ada_graph Ex.ada =
  candidates Py.insertion_order Ex.ada_graph Ex.ada.
Proof.
  unfold candidates.
  change (subjects Ex.ada_graph P.Course) with [Ex.cs101; Ex.cs201; Ex.cs202].
  cbn [flat_map]. unfold candidate.
  destruct (ada_sets O) as [-> ->].
  destruct (ada_sets Py.insertion_order) as [-> ->].
  unfold Py.intersection, Py.set.
  iter_small O. iter_small Py.insertion_order.
  reflexivity.
Qed.

Lemma ada_recommend O :
  recommend O Ex.ada_graph Ex.ada =
  recommend Py.insertion_order Ex.ada_graph Ex.ada.
Proof.
  assert (Hc : rec_courses O Ex.ada_graph Ex.ada =
               rec_courses Py.insertion_order Ex.ada_graph Ex.ada)
    by (unfold rec_courses, ranked; now rewrite ada_candidates).
  assert (Hk : rec_careers O Ex.ada_graph Ex.ada =
               rec_careers Py.insertion_order Ex.ada_graph Ex.ada).
  { unfold rec_careers.
    change (subjects Ex.ada_graph P.Career) with (@nil URIRef). reflexivity. }
  assert (Hp : rec_papers O Ex.ada_graph Ex.ada =
               rec_papers Py.insertion_order Ex.ada_graph Ex.ada).
  { unfold rec_papers.
    change (subjects Ex.ada_graph P.ResearchPaper) with (@nil URIRef). reflexivity. }
  unfold recommend. now rewrite Hc, Hk, Hp.
Qed.

(** C3, amended. In the store of the scenario with the row of CS201 read
    before that of CS202, whatever the iteration order of sets: both
    courses are candidates with equal scores and are ranked in the store's
    order, CS201 then CS202 (the sort is stable; the label plays no part);
    CS201 is accepted at running total 0, which brings the total to 4, and
    CS202 does not fit since 4 + 4 exceeds 6; the recommendation is the
    record of CS201 alone, and CS202 is not among the courses. *)
Theorem ada_scenario O :
  map course_label (ranked O Ex.ada_graph Ex.ada) = ["CS201"; "CS202"] /\
  map score (ranked O Ex.ada_graph Ex.ada) = [(1, -999, -999); (1, -999, -999)] /\
  map (fun c => cred_of (meta c)) (ranked O Ex.ada_graph Ex.ada) = [4; 4] /\
  map (fun p => (course_label (fst p), snd p))
    (greedy_walk (Some 6) 0 (ranked O Ex.ada_graph Ex.ada)) = [("CS201", 0)] /\
  snd (budget_loop (Some 6) (ranked O Ex.ada_graph Ex.ada)) = 4 /\
  recommend O Ex.ada_graph Ex.ada =
    {| courses := [Ex.cs201_rec]; careers := []; papers := [] |} /\
  ~ In "CS202" (map course (courses (recommend O Ex.ada_graph Ex.ada))).
Proof.
  rewrite ada_recommend. unfold ranked. rewrite ada_candidates.
  repeat split; try (vm_compute; reflexivity).
  vm_compute. intros [H | []]. discriminate H.
Qed.

(** With the two rows read in the other order the same triples recommend
    CS202, not CS201. *)
Lemma ada_swapped_counterexample :
  (forall t, In t Ex.ada_graph_swapped <-> In t Ex.ada_graph) /\
  map course_label (ranked Py.insertion_order Ex.ada_graph_swapped Ex.ada)
    = ["CS202"; "CS201"] /\
  map course (courses (recommend Py.insertion_order Ex.ada_graph_swapped Ex.ada))
    = ["CS202"].
Proof.
  split; [|split; vm_compute; reflexivity].
  intros t. split; intros H; vm_compute in H;
    repeat (destruct H as [H | H]; [subst t; vm_compute; tauto|]);
    contradiction.
Qed.

(* ================================================================== *)
(** * Counterexamples *)
(* ================================================================== *)

(** A negative budget: nothing is selected, and the empty selection
    exceeds the budget. *)
Lemma negative_budget_counterexample :
  max_credits Ex.bob_graph Ex.bob = Some (-1) /\
  courses (recommend Py.insertion_order Ex.bob_graph Ex.bob) = [] /\
  selected Py.insertion_order Ex.bob_graph Ex.bob = [] /\
  ~ sum_credits (selected Py.insertion_order Ex.bob_graph Ex.bob) <= -1.
Proof.
  repeat split; try (vm_compute; reflexivity).
  vm_compute. intros H. apply H. reflexivity.
Qed.

(** Under a negative budget a candidate without credits is reached by the
    budget loop and skipped. *)
Lemma zero_credit_skipped_counterexample :
  exists it,
    ranked Py.insertion_order Ex.bob_graph Ex.bob = [it] /\
    course_uri it = Ex.sem1 /\
    _get_int Ex.bob_graph (course_uri it) P.credits = None /\
    cred_of (meta it) = 0 /\
    budget_step (max_credits Ex.bob_graph Ex.bob) ([], 0) it = ([], 0) /\
    courses (recommend Py.insertion_order Ex.bob_graph Ex.bob) = [].
Proof.
  eexists. split; [vm_compute; reflexivity|].
  repeat split; vm_compute; reflexivity.
Qed.

(** A course whose difficulty is missing is ranked ahead of a course of
    difficulty 1000 with the same count of matched interests. *)
Lemma missing_difficulty_counterexample :
  exists x y,
    ranked Py.insertion_order Ex.cara_graph Ex.cara = [x; y] /\
    course_label x = "OPEN" /\ course_label y = "HARD" /\
    length (c_matched_interests x) = length (c_matched_interests y) /\
    difficulty (meta x) = None /\ difficulty (meta y) = Some 1000.
Proof.
  do 2 eexists. split; [vm_compute; reflexivity|].
  repeat split; vm_compute; reflexivity.
Qed.

(** A course of difficulty 0 is ranked as if its difficulty were 999,
    behind a course of difficulty 5 with the same count of matched
    interests. *)
Lemma zero_difficulty_ranked_last :
  map (fun c => (course_label c, difficulty (meta c), score c))
    (ranked Py.insertion_order Ex.dan_graph Ex.dan) =
  [("MID", Some 5, (1, -5, -999)); ("EASY", Some 0, (1, -999, -999))].
Proof. vm_compute. reflexivity. Qed.

(* ================================================================== *)
(** * The order of the interest paths *)
(* ================================================================== *)

(** C5 at the store of Eve, with sets iterating in insertion order: the
    interest paths of CS300 come in the order ML, AI, which is not the
    order of the skill labels; the matched interests next to them are
    sorted. *)
Theorem interest_paths_unsorted :
  map (fun r => (matched_interests r, interest_paths (explain r)))
    (courses (recommend Py.insertion_order Ex.eve_graph Ex.eve)) =
  [(["AI"; "ML"],
    ["Eve → hasInterest → ML ← teachesSkill ← CS300";
     "Eve → hasInterest → AI ← teachesSkill ← CS300"])] /\
  ("ML" <=? "AI")%string = false.
Proof. split; vm_compute; reflexivity. Qed.

(** C6 at the store of Eve: two iteration orders of the sets give two
    different recommendations for the same store and student. *)
Theorem recommend_depends_on_set_order :
  recommend Py.insertion_order Ex.eve_graph Ex.eve <>
  recommend uri_order Ex.eve_graph Ex.eve.
Proof.
  intros H. apply (f_equal courses) in H. vm_compute in H. discriminate H.
Qed.

(** The course that a career path names as the source of a skill is the
    first taken course, in the iteration order of the set, that teaches
    it. *)
Lemma career_paths_follow_set_order :
  map explain_paths (careers (recommend Py.insertion_order Ex.fay_graph Ex.fay)) =
    [["Fay → takesCourse → CS9 → teachesSkill → DB ← requiresSkill ← DBA"]] /\
  map explain_paths (careers (recommend uri_order Ex.fay_graph Ex.fay)) =
    [["Fay → takesCourse → CS1 → teachesSkill → DB ← requiresSkill ← DBA"]].
Proof. split; vm_compute; reflexivity. Qed.

(* ================================================================== *)
(** * The theorems at the example stores *)
(* ================================================================== *)

Lemma course_inclusion_witness :
  In Ex.cs201_rec (courses (recommend Py.insertion_order Ex.ada_graph Ex.ada)) /\
  exists c,
    In c (subjects Ex.ada_graph P.Course) /\
    course Ex.cs201_rec = iri_to_label Ex.ada_graph c /\
    ~ In c (objects Ex.ada_graph Ex.ada P.takesCourse) /\
    (forall p, In p (objects Ex.ada_graph c P.hasPrerequisite) ->
               In p (objects Ex.ada_graph Ex.ada P.takesCourse)).
Proof.
  assert (H : In Ex.cs201_rec
                (courses (recommend Py.insertion_order Ex.ada_graph Ex.ada)))
    by (vm_compute; left; reflexivity).
  split; [exact H|].
  destruct (course_inclusion Py.insertion_order Ex.ada_graph Ex.ada Ex.cs201_rec H)
    as (c & H1 & H2 & H3 & H4 & _).
  exists c. exact (conj H1 (conj H2 (conj H3 H4))).
Defined.

Lemma budget_invariant_witness :
  max_credits Ex.ada_graph Ex.ada = Some 6 /\
  sum_credits (selected Py.insertion_order Ex.ada_graph Ex.ada) <= 6.
Proof.
  split; [reflexivity|].
  apply (proj2 (budget_invariant Py.insertion_order Ex.ada_graph Ex.ada 6 eq_refl)).
  left. lia.
Defined.

Lemma ranking_sorted_witness :
  (forall it, In it (candidates Py.insertion_order Ex.cara_graph Ex.cara) ->
              difficulty (meta it) <> Some 0 /\ semester (meta it) <> Some 0) /\
  StronglySorted ranks_above (ranked Py.insertion_order Ex.cara_graph Ex.cara).
Proof.
  assert (H : forall it,
                In it (candidates Py.insertion_order Ex.cara_graph Ex.cara) ->
                difficulty (meta it) <> Some 0 /\ semester (meta it) <> Some 0).
  { intros it Hit. vm_compute in Hit.
    destruct Hit as [<- | [<- | []]]; split; vm_compute; intros E; discriminate E. }
  split; [exact H|].
  apply (ranking_sorted Py.insertion_order Ex.cara_graph Ex.cara H).
Defined.

Lemma budget_line_final_witness :
  courses (recommend Py.insertion_order Ex.ada_graph Ex.ada)
    = ([] ++ Ex.cs201_rec :: [])%list /\
  forall mc tot c,
    budget_line (explain Ex.cs201_rec) <> tentative_budget_line mc tot c.
Proof.
  assert (H : courses (recommend Py.insertion_order Ex.ada_graph Ex.ada)
              = ([] ++ Ex.cs201_rec :: [])%list)
    by (vm_compute; reflexivity).
  split; [exact H|].
  destruct (budget_line_final Py.insertion_order Ex.ada_graph Ex.ada
              [] Ex.cs201_rec [] H) as (wpre & it & _ & _ & _ & _ & _ & Hne).
  exact Hne.
Defined.

Lemma unknown_student_empty_witness :
  domain_ok Ex.ada_graph /\
  ~ In (S2A "Nobody") (subjects Ex.ada_graph P.Student) /\
  recommend Py.insertion_order Ex.ada_graph (S2A "Nobody")
    = {| courses := []; careers := []; papers := [] |}.
Proof.
  assert (Hd : domain_ok Ex.ada_graph)
    by (apply domain_okb_sound; vm_compute; reflexivity).
  assert (Hn : ~ In (S2A "Nobody") (subjects Ex.ada_graph P.Student)).
  { vm_compute. intros [E | []]. discriminate E. }
  split; [exact Hd|]. split; [exact Hn|].
  apply (unknown_student_empty Py.insertion_order Ex.ada_graph (S2A "Nobody") Hd Hn).
Defined.

Lemma zero_credit_selected_witness :
  exists it post,
    ranked Py.insertion_order Ex.cara_graph Ex.cara = ([] ++ it :: post)%list /\
    _get_int Ex.cara_graph (course_uri it) P.credits = None /\
    max_credits Ex.cara_graph Ex.cara = None /\
    In (emit None 0 it)
      (courses (recommend Py.insertion_order Ex.cara_graph Ex.cara)).
Proof.
  destruct (ranked Py.insertion_order Ex.cara_graph Ex.cara) as [|it post] eqn:E.
  - vm_compute in E. discriminate E.
  - exists it, post.
    assert (Hc : _get_int Ex.cara_graph (course_uri it) P.credits = None).
    { pose proof E as E'. vm_compute in E'. injection E' as <- _.
      vm_compute. reflexivity. }
    assert (Hm : forall m, max_credits Ex.cara_graph Ex.cara = Some m -> 0 <= m)
      by (intros m Hm; vm_compute in Hm; discriminate Hm).
    split; [reflexivity|]. split; [exact Hc|]. split; [reflexivity|].
    exact (proj2 (proj2 (zero_credit_selected Py.insertion_order Ex.cara_graph
                           Ex.cara [] it post E (or_introl Hc) Hm))).
Defined.

(* ================================================================== *)
(** * More on the store *)
(* ================================================================== *)

Lemma fold_add_In ts : forall g t,
  In t (fold_left add ts g) <-> In t g \/ In t ts.
Proof.
  induction ts as [|u ts IH]; intros g t; simpl; [tauto|].
  rewrite IH, add_In. intuition (subst; auto).
Qed.

Lemma fold_add_NoDup ts : forall g, NoDup g -> NoDup (fold_left add ts g).
Proof.
  induction ts as [|u ts IH]; intros g H; simpl; [exact H|].
  apply IH, add_NoDup, H.
Qed.

Lemma add_known g t : In t g -> add g t = g.
Proof.
  intros H. unfold add. destruct (in_dec Triple_dec t g); [reflexivity | contradiction].
Qed.

Lemma fold_add_known ts : forall g,
  (forall t, In t ts -> In t g) -> fold_left add ts g = g.
Proof.
  induction ts as [|u ts IH]; intros g H; simpl; [reflexivity|].
  rewrite add_known by (apply H; now left).
  apply IH. intros t Ht. apply H. now right.
Qed.

Lemma build_In ts t : In t (build ts) <-> In t ts.
Proof. unfold build. rewrite fold_add_In. simpl. tauto. Qed.

Lemma build_NoDup ts : NoDup (build ts).
Proof. apply fold_add_NoDup. constructor. Qed.

(* ================================================================== *)
(** * Labels *)
(* ================================================================== *)

Lemma after_last_hash_no_hash s :
  existsb (Ascii.eqb "#"%char) (list_ascii_of_string s) = false ->
  Py.after_last_hash s = s.
Proof.
  destruct s as [|c s]; [reflexivity|].
  cbn [Py.after_last_hash list_ascii_of_string existsb]. intros H.
  apply orb_false_iff in H. destruct H as [Hc ->].
  destruct (Ascii.eqb_spec c "#"%char) as [-> | _]; [|reflexivity].
  rewrite Ascii.eqb_refl in Hc. discriminate Hc.
Qed.

Lemma after_last_hash_free s :
  existsb (Ascii.eqb "#"%char) (list_ascii_of_string (Py.after_last_hash s)) = false.
Proof.
  induction s as [|c s IH]; [reflexivity|]. cbn [Py.after_last_hash].
  destruct (existsb _ (list_ascii_of_string s)) eqn:E; [exact IH|].
  destruct (Ascii.eqb_spec c "#"%char) as [-> | Hc]; [exact E|].
  cbn [list_ascii_of_string existsb]. rewrite E.
  destruct (Ascii.eqb_spec "#"%char c); [congruence | reflexivity].
Qed.

Lemma after_last_hash_app a b :
  existsb (Ascii.eqb "#"%char) (list_ascii_of_string b) = false ->
  Py.after_last_hash (a ++ "#" ++ b) = b.
Proof.
  intros Hb. induction a as [|c a IH].
  - change ("" ++ "#" ++ b) with (String "#" b).
    cbn [Py.after_last_hash]. rewrite Hb. reflexivity.
  - change (String c a ++ "#" ++ b) with (String c (a ++ "#" ++ b)).
    cbn [Py.after_last_hash].
    assert (H : existsb (Ascii.eqb "#"%char)
                  (list_ascii_of_string (a ++ "#" ++ b)) = true).
    { clear. induction a as [|d a IH].
      - reflexivity.
      - change (String d a ++ "#" ++ b) with (String d (a ++ "#" ++ b)).
        cbn [list_ascii_of_string existsb]. rewrite IH. apply orb_true_r. }
    rewrite H. exact IH.
Qed.

(** X1. The label shown for a node is its stored label when that is not
    empty; otherwise it is the text after the last [#] of the IRI, which
    holds no [#].  For a node of the namespace without a label, that text is
    the local name again. *)
Theorem label_fallback g node :
  (forall lab, value_str g node P.label = Some lab -> lab <> "" ->
               iri_to_label g node = lab) /\
  (value_str g node P.label = None \/ value_str g node P.label = Some "" ->
   iri_to_label g node = Py.after_last_hash node /\
   PyStr.contains "#" (iri_to_label g node) = false) /\
  (forall name,
     node = S2A name -> PyStr.contains "#" name = false ->
     value_str g node P.label = None \/ value_str g node P.label = Some "" ->
     iri_to_label g node = name).
Proof.
  unfold iri_to_label, PyStr.contains. split; [|split].
  - intros lab -> Hne. destruct (String.eqb_spec lab ""); [contradiction | reflexivity].
  - intros [-> | ->]; simpl; (split; [reflexivity | apply after_last_hash_free]).
  - intros name -> Hname H.
    assert (E : Py.after_last_hash (S2A name) = name).
    { unfold S2A, BASE.
      change ("http://example.org/s2a#" ++ name)
        with ("http://example.org/s2a" ++ "#" ++ name).
      now apply after_last_hash_app. }
    destruct H as [-> | ->]; simpl; exact E.
Qed.

(* ================================================================== *)
(** * The constraint checks, both ways *)
(* ================================================================== *)

Lemma endswith_app_r a b suf :
  PyStr.endswith b suf = true -> PyStr.endswith (a ++ b) suf = true.
Proof.
  intros H. induction a as [|c a IH]; [exact H|].
  change (String c a ++ b) with (String c (a ++ b)).
  cbn [PyStr.endswith]. rewrite IH. apply orb_true_r.
Qed.

Lemma endswith_last s suf :
  suf <> "" -> PyStr.endswith s suf = true -> last_char s = last_char suf.
Proof.
  intros Hne. induction s as [|c s IH]; cbn [PyStr.endswith].
  - rewrite orb_false_r. intros H. apply String.eqb_eq in H. congruence.
  - intros H. apply orb_true_iff in H. destruct H as [H | H].
    + apply String.eqb_eq in H. now rewrite H.
    + rewrite last_char_cons, (IH H).
      destruct suf as [|d suf]; [congruence|].
      destruct (last_char_some d suf) as (e & ->). reflexivity.
Qed.

(** A line that does not end in [L] is not a FAIL line; a line built up to
    the text [=> FAIL] is one. *)
Ltac not_fail_line :=
  let H := fresh in
  intros H; apply endswith_last in H; [|discriminate];
  rewrite !last_char_app in H; cbn in H; discriminate H.

Ltac fail_line := repeat apply endswith_app_r; reflexivity.

Lemma constraint_checks_complete ts md pt mc tot m :
  constraints_hold ts md pt m ->
  fst (fst (_constraint_checks ts md pt mc tot m)) = true.
Proof.
  intros (Hs & Hd & Ht). unfold _constraint_checks.
  destruct ts as [t|], (semester m) as [cs|];
    destruct md as [x|], (difficulty m) as [cd|];
    destruct pt as [p|], (track m) as [ct|];
    cbn [Py.not_str Py.opt_str_eqb orb];
    repeat match goal with
    | |- context [?a <=? ?b] => destruct (Z.leb_spec a b)
    | |- context [(?a =? ?b)%string] => destruct (String.eqb_spec a b)
    end;
    cbn [fst snd andb orb]; try reflexivity; exfalso;
    repeat match goal with
    | H : forall a b, Some ?u = Some a -> Some ?v = Some b -> _ |- _ =>
        specialize (H _ _ eq_refl eq_refl)
    end; try lia; try (apply Ht in n; auto; congruence).
Qed.

Lemma constraint_checks_lines ts md pt mc tot m :
  length (snd (fst (_constraint_checks ts md pt mc tot m))) = 3%nat /\
  (fst (fst (_constraint_checks ts md pt mc tot m)) = false <->
   exists l, In l (snd (fst (_constraint_checks ts md pt mc tot m))) /\
             PyStr.endswith l "=> FAIL" = true).
Proof.
  unfold _constraint_checks.
  destruct ts as [t|], (semester m) as [cs|];
    destruct md as [x|], (difficulty m) as [cd|];
    destruct pt as [p|], (track m) as [ct|];
    cbn [Py.not_str Py.opt_str_eqb orb];
    repeat match goal with
    | |- context [?a <=? ?b] => destruct (Z.leb_spec a b)
    | |- context [(?a =? ?b)%string] => destruct (String.eqb_spec a b)
    end;
    cbn [fst snd andb orb length In];
    (split; [reflexivity|]);
    (split;
     [ intros E; try discriminate E;
       first [ eexists; split; [left; reflexivity | fail_line]
             | eexists; split; [right; left; reflexivity | fail_line]
             | eexists; split; [right; right; left; reflexivity | fail_line] ]
     | intros (l & Hl & Hf); try reflexivity; exfalso;
       repeat (destruct Hl as [<- | Hl]; [revert Hf; not_fail_line|]);
       exact Hl ]).
Qed.

(** X2. [_constraint_checks] returns one line per check, semester,
    difficulty, track; it passes exactly when every check that is known on
    both sides holds, and fails exactly when one of the three lines ends in
    [=> FAIL]. *)
Theorem constraint_checks_decides ts md pt mc tot m :
  (fst (fst (_constraint_checks ts md pt mc tot m)) = true <->
   constraints_hold ts md pt m) /\
  length (snd (fst (_constraint_checks ts md pt mc tot m))) = 3%nat /\
  (fst (fst (_constraint_checks ts md pt mc tot m)) = false <->
   exists l, In l (snd (fst (_constraint_checks ts md pt mc tot m))) /\
             PyStr.endswith l "=> FAIL" = true).
Proof.
  split; [split; [apply constraint_checks_ok | apply constraint_checks_complete]|].
  apply constraint_checks_lines.
Qed.

(* ================================================================== *)
(** * More on the returned courses *)
(* ================================================================== *)

Lemma constraint_checks_budget_line ts md pt mc tot m :
  snd (_constraint_checks ts md pt mc tot m) =
  tentative_budget_line mc tot (cred_of m).
Proof.
  unfold _constraint_checks.
  destruct ts, (semester m), md, (difficulty m);
    repeat match goal with
    | |- context [?a <=? ?b] => destruct (a <=? b)
    end;
    destruct (Py.not_str pt || Py.not_str (track m));
    try destruct (Py.opt_str_eqb (track m) pt); reflexivity.
Qed.

Lemma candidate_explain_inv O g s c it :
  candidate O g s c = Some it ->
  constraint_checks (c_explain it) =
    snd (fst (_constraint_checks (target_semester g s) (max_difficulty g s)
                (preferred_track g s) (max_credits g s) 0 (_course_meta g c))) /\
  budget_line (c_explain it) =
    tentative_budget_line (max_credits g s) 0 (cred_of (_course_meta g c)).
Proof.
  unfold candidate.
  destruct (Py.mem c (taken_courses O g s)); [discriminate|].
  destruct (Py.intersection O _ _) as [|sk0 matched]; [discriminate|].
  destruct (Py.issubset _ _); [|discriminate]. cbn [negb].
  destruct (fst (fst (_constraint_checks _ _ _ _ _ _))); [|discriminate].
  cbn [negb]. intros E. inversion E; subst it; clear E.
  split; [reflexivity|]. cbn [c_explain budget_line].
  apply constraint_checks_budget_line.
Qed.

Lemma candidate_complete O g s c :
  ~ In c (objects g s P.takesCourse) ->
  (exists sk, In sk (objects g c P.teachesSkill) /\ In sk (objects g s P.hasInterest)) ->
  (forall p, In p (objects g c P.hasPrerequisite) -> In p (objects g s P.takesCourse)) ->
  constraints_hold (target_semester g s) (max_difficulty g s) (preferred_track g s)
    (_course_meta g c) ->
  exists it, candidate O g s c = Some it.
Proof.
  intros Hnt (sk & Hsk1 & Hsk2) Hpre Hok. unfold candidate.
  assert (Hm : Py.mem c (taken_courses O g s) = false).
  { apply mem_false. unfold taken_courses. now rewrite set_In. }
  rewrite Hm.
  destruct (Py.intersection O _ _) as [|sk0 matched] eqn:E.
  - exfalso. apply nil_iff_no_In with (x := sk) in E. apply E.
    apply intersection_In. split; [now apply set_In|].
    unfold interest_skills. now apply set_In.
  - assert (Hsub : Py.issubset (Py.set O (objects g c P.hasPrerequisite))
                     (taken_courses O g s) = true).
    { apply issubset_spec. intros p Hp. apply set_In in Hp.
      unfold taken_courses. apply set_In. now apply Hpre. }
    rewrite Hsub. cbn [negb].
    rewrite (constraint_checks_complete _ _ _ (max_credits g s) 0 _ Hok).
    cbn [negb]. eexists. reflexivity.
Qed.

Lemma walk_no_budget l : forall t, map fst (greedy_walk None t l) = l.
Proof.
  induction l as [|c l IH]; intros t; simpl; [reflexivity|]. now rewrite IH.
Qed.

Lemma walk_subseq m l : forall t, Subseq (map fst (greedy_walk m t l)) l.
Proof.
  induction l as [|c l IH]; intros t; simpl; [constructor|].
  destruct (match m with Some m0 => t + cred_of (meta c) <=? m0 | None => true end);
    simpl; [apply Subseq_keep | apply Subseq_drop]; apply IH.
Qed.

(** X3. The budget pass keeps the ranking: the returned courses are the
    selected candidates, which are ranked candidates in their ranked order
    with some left out; without [maxCredits] none is left out. *)
Theorem courses_follow_ranking O g s :
  Subseq (selected O g s) (ranked O g s) /\
  map course (courses (recommend O g s)) = map course_label (selected O g s) /\
  (max_credits g s = None -> selected O g s = ranked O g s).
Proof.
  unfold selected. split; [apply walk_subseq|]. split.
  - rewrite rec_courses_walk, !map_map. reflexivity.
  - intros ->. apply walk_no_budget.
Qed.

(** X4. For a student without [maxCredits], every course of the store that
    the student has not taken, that teaches one of the student's interests,
    whose prerequisites are all taken and that passes the constraint checks
    is returned. *)
Theorem eligible_course_returned O g s c :
  max_credits g s = None ->
  In c (subjects g P.Course) ->
  ~ In c (objects g s P.takesCourse) ->
  (exists sk, In sk (objects g c P.teachesSkill) /\ In sk (objects g s P.hasInterest)) ->
  (forall p, In p (objects g c P.hasPrerequisite) -> In p (objects g s P.takesCourse)) ->
  constraints_hold (target_semester g s) (max_difficulty g s) (preferred_track g s)
    (_course_meta g c) ->
  exists r, In r (courses (recommend O g s)) /\ course r = iri_to_label g c.
Proof.
  intros Hmax Hc Hnt Hsk Hpre Hok.
  destruct (candidate_complete O g s c Hnt Hsk Hpre Hok) as (it & Hit).
  assert (Hin : In it (ranked O g s)).
  { apply ranked_In, candidates_In. now exists c. }
  rewrite rec_courses_walk, Hmax.
  rewrite <- (walk_no_budget (ranked O g s) 0) in Hin.
  apply in_map_iff in Hin. destruct Hin as ([it' t] & Hfst & Hin).
  simpl in Hfst. subst it'.
  exists (emit None t it). split.
  - apply in_map_iff. now exists (it, t).
  - simpl. apply candidate_inv in Hit.
    destruct Hit as (_ & _ & _ & _ & _ & Hlab & _). exact Hlab.
Qed.

(** X5. The explanation of a returned course holds exactly three
    constraint lines, and none of them ends in [=> FAIL]. *)
Theorem no_fail_line_returned O g s r :
  In r (courses (recommend O g s)) ->
  length (constraint_checks (explain r)) = 3%nat /\
  forall l, In l (constraint_checks (explain r)) ->
            PyStr.endswith l "=> FAIL" = false.
Proof.
  rewrite rec_courses_walk. intros Hr.
  apply in_map_iff in Hr. destruct Hr as ([it t] & <- & Hp).
  apply greedy_walk_In in Hp. simpl in Hp.
  apply ranked_In, candidates_In in Hp. destruct Hp as (c & _ & Hcand).
  pose proof (candidate_explain_inv _ _ _ _ _ Hcand) as [Hcc _].
  apply candidate_inv in Hcand. destruct Hcand as (_ & _ & _ & Hok & _).
  simpl. rewrite Hcc.
  destruct (constraint_checks_lines (target_semester g s) (max_difficulty g s)
              (preferred_track g s) (max_credits g s) 0 (_course_meta g c))
    as [Hlen Hfail].
  split; [exact Hlen|]. intros l Hl.
  destruct (PyStr.endswith l "=> FAIL") eqn:E; [|reflexivity].
  assert (Hf : fst (fst (_constraint_checks (target_semester g s)
                 (max_difficulty g s) (preferred_track g s) (max_credits g s) 0
                 (_course_meta g c))) = false)
    by (apply Hfail; now exists l).
  congruence.
Qed.

(* ================================================================== *)
(** * Papers and the order of careers *)
(* ================================================================== *)

Lemma paper_matches_spec g s p :
  paper_matches g s p = true <->
  exists sk, In sk (objects g p P.relatedTo) /\ In sk (objects g s P.hasInterest).
Proof.
  unfold paper_matches. rewrite existsb_exists.
  split; intros (sk & H1 & H2); exists sk; (split; [assumption|]);
    now apply mem_In.
Qed.

Lemma paper_entry_matches O g s p :
  paper_matches g s p = true ->
  exists r, paper_entry O g s p = Some r /\ paper r = iri_to_label g p.
Proof.
  intros H. apply paper_matches_spec in H. destruct H as (sk & Hrel & Hint).
  unfold paper_entry.
  destruct (Py.intersection O _ _) as [|x l] eqn:E.
  - exfalso. apply nil_iff_no_In with (x := sk) in E. apply E.
    apply intersection_In. split; [now apply set_In|].
    unfold interest_skills. now apply set_In.
  - eexists. split; reflexivity.
Qed.

Lemma paper_entry_no_match O g s p :
  paper_matches g s p = false -> paper_entry O g s p = None.
Proof.
  intros H. unfold paper_entry.
  destruct (Py.intersection O _ _) as [|x l] eqn:E; [reflexivity|].
  exfalso.
  assert (Hin : In x (Py.intersection O (Py.set O (objects g p P.relatedTo))
                        (interest_skills O g s))) by (rewrite E; now left).
  apply intersection_In in Hin. destruct Hin as [H1 H2].
  apply set_In in H1. unfold interest_skills in H2. apply set_In in H2.
  assert (paper_matches g s p = true)
    by (apply paper_matches_spec; now exists x).
  congruence.
Qed.

Lemma paper_entries_labels O g s l :
  map paper
    (flat_map (fun p =>
       match paper_entry O g s p with Some r => [r] | None => [] end) l) =
  map (iri_to_label g) (filter (paper_matches g s) l).
Proof.
  induction l as [|p l IH]; simpl; [reflexivity|].
  rewrite map_app, IH.
  destruct (paper_matches g s p) eqn:E.
  - destruct (paper_entry_matches O g s p E) as (r & -> & Hr).
    simpl. now rewrite Hr.
  - now rewrite (paper_entry_no_match O g s p E).
Qed.

(** X6. The papers returned for a student are, one record per node, the
    ResearchPaper nodes related to one of the student's interests (the
    skills of taken courses do not count), and the records come in
    ascending order of their labels. *)
Theorem papers_by_label O g s :
  (exists ps,
     map paper (papers (recommend O g s)) = map (iri_to_label g) ps /\
     Permutation ps (filter (paper_matches g s) (subjects g P.ResearchPaper)) /\
     forall p,
       In p ps <->
       In p (subjects g P.ResearchPaper) /\
       exists sk, In sk (objects g p P.relatedTo) /\
                  In sk (objects g s P.hasInterest)) /\
  StronglySorted (fun a b => (a <=? b)%string = true)
    (map paper (papers (recommend O g s))).
Proof.
  cbn [papers recommend]. unfold rec_papers. split.
  - match goal with
    | |- context [Py.sorted ?cmp ?E] =>
        pose proof (Permutation_map paper (sorted_perm cmp E)) as Hp
    end.
    rewrite paper_entries_labels in Hp.
    apply Permutation_map_inv in Hp. destruct Hp as (ps & Hps & Hperm).
    exists ps. split; [exact Hps|]. split; [now apply Permutation_sym|].
    intros p. rewrite <- paper_matches_spec, <- filter_In.
    split; apply Permutation_in; [now apply Permutation_sym | assumption].
  - rewrite map_sorted_by_key. apply sorted_strings_sorted.
Qed.

Lemma career_key_leb a b :
  Py.tuple_int_str_leb (career_key a) (career_key b) = true <-> career_before a b.
Proof.
  unfold Py.tuple_int_str_leb, career_key, career_before. cbn [fst snd].
  rewrite orb_true_iff, andb_true_iff, Z.ltb_lt, Z.eqb_eq.
  split; (intros [H | [H1 H2]]; [left; lia | right; split; [lia | exact H2]]).
Qed.

(** X7. The careers are returned with the larger count of matched skills
    first and, among equal counts, in ascending order of their labels. *)
Theorem careers_ordered O g s :
  StronglySorted career_before (careers (recommend O g s)).
Proof.
  cbn [careers recommend]. unfold rec_careers.
  match goal with
  | |- context [Py.sorted ?cmp ?E] =>
      apply (StronglySorted_impl (fun x y => cmp x y = true));
        [ intros x y _ _ H; now apply career_key_leb
        | apply (sorted_sorted cmp) ]
  end.
  - intros x y. rewrite !career_key_leb. unfold career_before.
    destruct (Nat.lt_total (length (matched_skills x)) (length (matched_skills y)))
      as [H | [H | H]]; [right; left; exact H | | left; left; exact H].
    destruct (String.leb_total (career x) (career y)) as [L | L];
      [left | right]; right; split; auto.
  - intros x y z. rewrite !career_key_leb. unfold career_before.
    intros [H1 | [H1 H1']] [H2 | [H2 H2']]; try (left; lia).
    right. split; [lia|]. eapply leb_trans; eassumption.
Qed.

(* ================================================================== *)
(** * One path per match *)
(* ================================================================== *)

Lemma career_entry_inv O g s car r :
  career_entry O g s car = Some r ->
  exists matched,
    matched <> [] /\
    matched_skills r = Py.sorted String.leb (map (iri_to_label g) matched) /\
    explain_paths r =
      map (career_path O g s (iri_to_label g car))
        (Py.sorted (Py.by_key (iri_to_label g)) matched).
Proof.
  unfold career_entry.
  destruct (Py.intersection O _ _) as [|x l]; [discriminate|].
  intros E. inversion E; subst r; clear E.
  exists (x :: l). split; [discriminate|]. split; reflexivity.
Qed.

Lemma paper_entry_inv O g s p r :
  paper_entry O g s p = Some r ->
  exists matched : list URIRef,
    matched <> [] /\
    length (p_explain_paths r) = length matched.
Proof.
  unfold paper_entry.
  destruct (Py.intersection O _ _) as [|x l]; [discriminate|].
  intros E. inversion E; subst r; clear E.
  exists (x :: l). split; [discriminate|].
  cbn [p_explain_paths]. rewrite length_map.
  exact (sorted_length (Py.by_key (iri_to_label g)) (x :: l)).
Qed.

Lemma flat_map_opt_In {A B} (f : A -> option B) l r :
  In r (flat_map (fun x => match f x with Some y => [y] | None => [] end) l) ->
  exists x, In x l /\ f x = Some r.
Proof.
  rewrite in_flat_map. intros (x & Hx & Hr). exists x. split; [assumption|].
  destruct (f x); [|contradiction]. destruct Hr as [<- | []]. reflexivity.
Qed.

(** X8. Every returned record is justified: a course has one interest
    path per matched interest and at least one; a career has one path per
    matched skill and at least one; a paper has at least one path. *)
Theorem one_path_per_match O g s :
  (forall r, In r (courses (recommend O g s)) ->
     length (interest_paths (explain r)) = length (matched_interests r) /\
     matched_interests r <> []) /\
  (forall c, In c (careers (recommend O g s)) ->
     length (explain_paths c) = length (matched_skills c) /\
     matched_skills c <> []) /\
  (forall p, In p (papers (recommend O g s)) -> p_explain_paths p <> []).
Proof.
  split; [|split].
  - rewrite rec_courses_walk. intros r Hr.
    apply in_map_iff in Hr. destruct Hr as ([it t] & <- & Hp).
    apply greedy_walk_In in Hp. simpl in Hp.
    apply ranked_In, candidates_In in Hp. destruct Hp as (c & _ & Hcand).
    apply candidate_inv in Hcand.
    destruct Hcand as (_ & (sk & Hs1 & Hs2) & _ & _ & _ & _ & _ & Hmi & _ & Hip & _).
    cbn [emit explain matched_interests set_budget_line interest_paths fst snd].
    rewrite Hmi, Hip. rewrite sorted_length, !length_map. split; [reflexivity|].
    intros E. apply nil_iff_no_In with (x := iri_to_label g sk) in E.
    apply E, matched_labels_In. now exists sk.
  - cbn [careers recommend]. unfold rec_careers. intros c Hc.
    apply sorted_In, flat_map_opt_In in Hc. destruct Hc as (car & _ & Hc).
    apply career_entry_inv in Hc. destruct Hc as (m & Hne & -> & ->).
    rewrite !sorted_length, !length_map, sorted_length. split; [reflexivity|].
    intros E. apply (f_equal (@length string)) in E.
    rewrite sorted_length, length_map in E. destruct m; [congruence | discriminate].
  - cbn [papers recommend]. unfold rec_papers. intros p Hp.
    apply sorted_In, flat_map_opt_In in Hp. destruct Hp as (x & _ & Hp).
    apply paper_entry_inv in Hp. destruct Hp as (m & Hne & Hlen).
    intros E. rewrite E in Hlen. destruct m; [congruence | discriminate].
Qed.

(* ================================================================== *)
(** * list_students and get_profile *)
(* ================================================================== *)

(** X9. [list_students] lists the students the store enumerates, each
    with its IRI and the label [iri_to_label] gives it, in ascending order
    of the labels. *)
Theorem list_students_sorted g :
  Permutation (map iri (list_students g)) (subjects g P.Student) /\
  (forall e, In e (list_students g) -> s_label e = iri_to_label g (iri e)) /\
  StronglySorted (fun a b => (a <=? b)%string = true)
    (map s_label (list_students g)).
Proof.
  unfold list_students. split; [|split].
  - eapply perm_trans; [apply Permutation_map, sorted_perm|].
    rewrite map_map. cbn [iri]. rewrite map_id. apply Permutation_refl.
  - intros e He. apply sorted_In, in_map_iff in He.
    destruct He as (s & <- & _). reflexivity.
  - rewrite map_sorted_by_key. apply sorted_strings_sorted.
Qed.

(** X10. The profile lists the labels of the taken courses and of the
    interests in ascending order, one per edge; every matched interest of a
    recommended course is among the profile's interests; and the budget of
    the profile is the one [recommend] applies. *)
Theorem profile_agrees_with_recommend O g s :
  StronglySorted (fun a b => (a <=? b)%string = true) (taken (get_profile g s)) /\
  StronglySorted (fun a b => (a <=? b)%string = true) (interests (get_profile g s)) /\
  Permutation (taken (get_profile g s))
    (map (iri_to_label g) (objects g s P.takesCourse)) /\
  Permutation (interests (get_profile g s))
    (map (iri_to_label g) (objects g s P.hasInterest)) /\
  (forall r l, In r (courses (recommend O g s)) -> In l (matched_interests r) ->
               In l (interests (get_profile g s))) /\
  c_max_credits (constraints (get_profile g s)) = max_credits g s.
Proof.
  unfold get_profile. cbn [taken interests constraints c_max_credits].
  split; [apply sorted_strings_sorted|]. split; [apply sorted_strings_sorted|].
  split; [apply sorted_perm|]. split; [apply sorted_perm|].
  split; [|reflexivity].
  rewrite rec_courses_walk. intros r l Hr Hl.
  apply in_map_iff in Hr. destruct Hr as ([it t] & <- & Hp).
  apply greedy_walk_In in Hp. simpl in Hp.
  apply ranked_In, candidates_In in Hp. destruct Hp as (c & _ & Hcand).
  apply candidate_inv in Hcand.
  destruct Hcand as (_ & _ & _ & _ & _ & _ & _ & Hmi & _).
  cbn [emit matched_interests fst snd] in Hl. rewrite Hmi in Hl.
  apply matched_labels_In in Hl. destruct Hl as (sk & _ & Hsk & ->).
  apply sorted_In, in_map, Hsk.
Qed.

(* ================================================================== *)
(** * _js_str *)
(* ================================================================== *)

Lemma append_assoc (a b c : string) : (a ++ b) ++ c = a ++ (b ++ c).
Proof. induction a as [|x a IH]; simpl; [reflexivity | now rewrite IH]. Qed.

Lemma append_nil_r (a : string) : a ++ "" = a.
Proof. induction a as [|x a IH]; simpl; [reflexivity | now rewrite IH]. Qed.

Lemma expand_app f a b : expand f (a ++ b) = expand f a ++ expand f b.
Proof.
  induction a as [|x a IH]; simpl; [reflexivity|].
  now rewrite IH, append_assoc.
Qed.

Lemma expand_expand f h s : expand f (expand h s) = expand (fun c => expand f (h c)) s.
Proof.
  induction s as [|x s IH]; simpl; [reflexivity|].
  now rewrite expand_app, IH.
Qed.

Lemma expand_ext f h s : (forall c, f c = h c) -> expand f s = expand h s.
Proof.
  intros H. induction s as [|x s IH]; simpl; [reflexivity|]. now rewrite H, IH.
Qed.

(** Replacing one character is a character-wise expansion. *)
Lemma replace_char c new s :
  PyStr.replace (str1 c) new s =
  expand (fun x => if Ascii.eqb x c then new else str1 x) s.
Proof.
  unfold PyStr.replace. induction s as [|x s IH]; [reflexivity|].
  cbn [PyStr.replace_go expand String.prefix str1 String.length Nat.sub].
  destruct (ascii_dec c x) as [<- | Hne].
  - rewrite Ascii.eqb_refl.
    assert (Hp : String.prefix "" s = true) by (destruct s; reflexivity).
    rewrite Hp, IH. reflexivity.
  - destruct (Ascii.eqb_spec x c); [congruence|]. now rewrite IH.
Qed.

Lemma replace_crlf_other x q :
  x <> CR ->
  PyStr.replace crlf (str1 LF) (String x q) = String x (PyStr.replace crlf (str1 LF) q).
Proof.
  intros Hx. unfold PyStr.replace, crlf.
  cbn [PyStr.replace_go String.prefix str1].
  destruct (ascii_dec CR x); [congruence | reflexivity].
Qed.

Lemma replace_crlf_pair q :
  PyStr.replace crlf (str1 LF) (String CR (String LF q)) =
  String LF (PyStr.replace crlf (str1 LF) q).
Proof.
  unfold PyStr.replace, crlf.
  cbn [PyStr.replace_go String.prefix str1 String.length Nat.sub].
  destruct (ascii_dec CR CR); [|congruence].
  destruct (ascii_dec LF LF); [|congruence].
  assert (Hp : String.prefix "" q = true) by (destruct q; reflexivity).
  rewrite Hp. reflexivity.
Qed.

Lemma replace_crlf_lone q :
  (forall q', q <> String LF q') ->
  PyStr.replace crlf (str1 LF) (String CR q) =
  String CR (PyStr.replace crlf (str1 LF) q).
Proof.
  intros Hq. unfold PyStr.replace, crlf.
  destruct q as [|y q];
    cbn [PyStr.replace_go String.prefix str1];
    (destruct (ascii_dec CR CR); [|congruence]); [reflexivity|].
  destruct (ascii_dec LF y) as [<- | Hy]; [exfalso; now apply (Hq q) | reflexivity].
Qed.

Lemma escape_quotes_cases c :
  (c = BACKSLASH /\ escape_quotes c = String BACKSLASH (str1 BACKSLASH)) \/
  (c = DQUOTE /\ escape_quotes c = String BACKSLASH (str1 DQUOTE)) \/
  (c <> BACKSLASH /\ c <> DQUOTE /\ escape_quotes c = str1 c).
Proof.
  unfold escape_quotes.
  destruct (Ascii.eqb_spec c BACKSLASH) as [-> | H1]; [left; auto|].
  destruct (Ascii.eqb_spec c DQUOTE) as [-> | H2]; [right; left; auto|].
  right; right; auto.
Qed.

Lemma replace_crlf_escape_quotes n : forall s,
  (String.length s <= n)%nat ->
  PyStr.replace crlf (str1 LF) (expand escape_quotes s) =
  expand escape_quotes (PyStr.replace crlf (str1 LF) s).
Proof.
  induction n as [|n IH]; intros s Hlen.
  - destruct s; [reflexivity | simpl in Hlen; lia].
  - destruct s as [|x s]; [reflexivity|].
    assert (Hs : (String.length s <= n)%nat) by (simpl in Hlen; lia).
    destruct (Ascii.eqb_spec x CR) as [-> | Hx].
    + change (expand escape_quotes (String CR s))
        with (String CR (expand escape_quotes s)).
      destruct s as [|y s].
      * reflexivity.
      * destruct (Ascii.eqb_spec y LF) as [-> | Hy].
        -- change (expand escape_quotes (String LF s))
             with (String LF (expand escape_quotes s)).
           rewrite !replace_crlf_pair.
           change (expand escape_quotes (String LF ?q))
             with (String LF (expand escape_quotes q)).
           rewrite IH by (simpl in Hs; lia). reflexivity.
        -- rewrite !replace_crlf_lone.
           ++ change (expand escape_quotes (String CR ?q))
                with (String CR (expand escape_quotes q)).
              now rewrite IH.
           ++ intros q' E. inversion E. congruence.
           ++ intros q' E. cbn [expand] in E.
              destruct (escape_quotes_cases y) as [[-> Hc] | [[-> Hc] | (_ & _ & Hc)]];
                rewrite Hc in E; inversion E; congruence.
    + cbn [expand]. rewrite replace_crlf_other by exact Hx.
      cbn [expand].
      destruct (escape_quotes_cases x) as [[-> Hc] | [[-> Hc] | (_ & _ & Hc)]];
        rewrite Hc; cbn [append str1];
        repeat (rewrite replace_crlf_other by (try exact Hx; discriminate));
        now rewrite IH.
Qed.

Lemma js_read_escaped s :
  js_read false
    (expand js_escape
       (expand (fun x => if Ascii.eqb x CR then str1 LF else str1 x) s)) =
  Some (expand (fun x => if Ascii.eqb x CR then str1 LF else str1 x) s).
Proof.
  induction s as [|x s IH]; [reflexivity|].
  cbn [expand]. rewrite expand_app.
  destruct (Ascii.eqb_spec x CR) as [-> | Hx].
  - cbn [expand str1 append]. change (js_escape LF) with (String BACKSLASH "n").
    cbn [append js_read]. rewrite IH. reflexivity.
  - cbn [expand str1 append]. rewrite append_nil_r. unfold js_escape at 1.
    destruct (Ascii.eqb_spec x BACKSLASH) as [-> | H1];
      [cbn [append str1 js_read]; rewrite IH; reflexivity|].
    destruct (Ascii.eqb_spec x DQUOTE) as [-> | H2];
      [cbn [append str1 js_read]; rewrite IH; reflexivity|].
    destruct (Ascii.eqb_spec x LF) as [-> | H3];
      [cbn [append str1 js_read]; rewrite IH; reflexivity|].
    cbn [append str1 js_read].
    destruct (Ascii.eqb_spec x BACKSLASH); [congruence|].
    destruct (Ascii.eqb_spec x DQUOTE); [congruence|].
    destruct (Ascii.eqb_spec x CR); [congruence|].
    destruct (Ascii.eqb_spec x LF); [congruence|].
    cbn [orb]. rewrite IH. reflexivity.
Qed.

(** X11. [_js_str] writes a double-quoted JS string literal whose body a
    JS engine reads back as the given string with its line breaks
    normalised (CR LF and CR turned into LF); in particular the body holds
    no bare double quote and no line break. *)
Theorem js_str_reads_back s :
  exists body,
    _js_str s = str1 DQUOTE ++ body ++ str1 DQUOTE /\
    js_read false body = Some (unix_newlines s).
Proof.
  unfold _js_str, unix_newlines. eexists. split; [reflexivity|].
  rewrite !replace_char.
  rewrite (expand_expand _ (fun x => if Ascii.eqb x BACKSLASH then _ else _)).
  rewrite (expand_ext _ escape_quotes s).
  2:{ intros c. unfold escape_quotes.
      destruct (Ascii.eqb_spec c BACKSLASH) as [-> | H1]; [reflexivity|].
      cbn [expand str1 append].
      destruct (Ascii.eqb_spec c DQUOTE); reflexivity. }
  change (String CR (str1 LF)) with crlf.
  rewrite (replace_crlf_escape_quotes _ s (le_n _)).
  rewrite <- js_read_escaped. f_equal.
  rewrite !expand_expand. apply expand_ext. intros c.
  destruct (Ascii.eqb_spec c CR) as [-> | Hc]; [reflexivity|].
  cbn [expand str1 append]. rewrite append_nil_r.
  unfold escape_quotes, js_escape.
  destruct (Ascii.eqb_spec c BACKSLASH) as [-> | H1]; [reflexivity|].
  destruct (Ascii.eqb_spec c DQUOTE) as [-> | H2]; [reflexivity|].
  cbn [expand str1 append].
  destruct (Ascii.eqb_spec c CR); [congruence|].
  cbn [expand str1 append].
  destruct (Ascii.eqb_spec c LF); reflexivity.
Qed.

(* ================================================================== *)
(** * The ingested store *)
(* ================================================================== *)


Lemma load_rows_none body rows : load_rows body rows None = None.
Proof. induction rows as [|r rows IH]; [reflexivity | exact IH]. Qed.

Lemma load_rows_some body rows : forall g g',
  load_rows body rows (Some g) = Some g' ->
  (forall row, In row rows -> exists ts, body row = Some ts) /\
  (forall t, In t g' <->
     In t g \/ exists row ts, In row rows /\ body row = Some ts /\ In t ts) /\
  (NoDup g -> NoDup g').
Proof.
  induction rows as [|r rows IH]; intros g g' H.
  - cbn in H. inversion H; subst. split; [intros row []|]. split; [|auto].
    intros t. split; [auto|]. intros [Ht | (row & _ & [] & _)]. exact Ht.
  - cbn [load_rows fold_left] in H. destruct (body r) as [ts|] eqn:Hr.
    + cbn [option_map] in H. apply IH in H. destruct H as (Hall & Hin & Hnd).
      split; [|split].
      * intros row [<- | Hrow]; [now exists ts | now apply Hall].
      * intros t. rewrite Hin, fold_add_In. split.
        -- intros [[Ht | Ht] | (row & ts' & Hrow & Hb & Ht)].
           ++ now left.
           ++ right. exists r, ts. repeat split; auto. now left.
           ++ right. exists row, ts'. repeat split; auto. now right.
        -- intros [Ht | (row & ts' & [<- | Hrow] & Hb & Ht)].
           ++ left. now left.
           ++ left. right. congruence.
           ++ right. now exists row, ts'.
      * intros Hg. apply Hnd, fold_add_NoDup, Hg.
    + cbn [option_map] in H. change (load_rows body rows None = Some g') in H.
      rewrite load_rows_none in H. discriminate H.
Qed.

Lemma load_rows_total body rows : forall g,
  (forall row, In row rows -> body row <> None) ->
  exists g', load_rows body rows (Some g) = Some g'.
Proof.
  induction rows as [|r rows IH]; intros g H; [now exists g|].
  cbn [load_rows fold_left].
  destruct (body r) as [ts|] eqn:Hr; [|exfalso; apply (H r); [now left | exact Hr]].
  apply IH. intros row Hrow. apply H. now right.
Qed.

Lemma run_stages_none l : run_stages l None = None.
Proof. induction l as [|st l IH]; [reflexivity | exact IH]. Qed.

Lemma run_stages_some l : forall g g',
  run_stages l (Some g) = Some g' ->
  (forall stage, In stage l -> stage_ok stage) /\
  (forall t, In t g' <->
     In t g \/ exists stage ts, In stage l /\ stage_adds stage ts /\ In t ts) /\
  (NoDup g -> NoDup g').
Proof.
  induction l as [|[body file] l IH]; intros g g' H.
  - cbn in H. inversion H; subst. split; [intros st []|]. split; [|auto].
    intros t. split; [auto|]. intros [Ht | (st & _ & [] & _)]. exact Ht.
  - cbn [run_stages fold_left fst snd] in H.
    destruct (load body file g) as [g1|] eqn:Hl;
      [|change (run_stages l None = Some g') in H;
        rewrite run_stages_none in H; discriminate H].
    change (run_stages l (Some g1) = Some g') in H.
    apply IH in H. destruct H as (Hok & Hin & Hnd).
    unfold load in Hl.
    destruct file as [rows|]; [|discriminate Hl].
    apply load_rows_some in Hl. destruct Hl as (Hall & Hin1 & Hnd1).
    split; [|split].
    + intros st [<- | Hst]; [|now apply Hok].
      exists rows. split; [reflexivity|]. intros row Hrow.
      destruct (Hall row Hrow) as (ts & Hts). cbn [fst]. congruence.
    + intros t. rewrite Hin, Hin1. split.
      * intros [[Ht | (row & ts & Hrow & Hb & Ht)] | (st & ts & Hst & Ha & Ht)].
        -- now left.
        -- right. exists (body, Some rows), ts. split; [now left|].
           split; [|exact Ht]. now exists rows, row.
        -- right. exists st, ts. split; [now right | now split].
      * intros [Ht | (st & ts & [<- | Hst] & Ha & Ht)].
        -- left. now left.
        -- left. right. destruct Ha as (rows' & row & E & Hrow & Hb).
           cbn [fst snd] in *. inversion E; subst rows'. now exists row, ts.
        -- right. now exists st, ts.
    + intros Hg. apply Hnd, Hnd1, Hg.
Qed.

Section Rows.

Variable strip : string -> string.
Variable int : string -> option Z.

Lemma contains_app c a b :
  PyStr.contains c (a ++ b) = PyStr.contains c a || PyStr.contains c b.
Proof.
  unfold PyStr.contains. induction a as [|x a IH]; [reflexivity|].
  change (String x a ++ b) with (String x (a ++ b)).
  cbn [list_ascii_of_string existsb]. now rewrite IH, orb_assoc.
Qed.

Lemma prefix_app a b : String.prefix a (a ++ b) = true.
Proof.
  induction a as [|x a IH]; [now destruct b|].
  change (String x a ++ b) with (String x (a ++ b)). cbn [String.prefix].
  destruct (ascii_dec x x); [exact IH | congruence].
Qed.

Lemma as_uri_ok x : iri_ok (_as_uri strip x).
Proof.
  unfold iri_ok, _as_uri, S2A. split; [apply prefix_app|].
  rewrite contains_app. change (PyStr.contains " " BASE) with false.
  cbn [orb]. change " "%string with (str1 " "). rewrite replace_char.
  generalize (strip x). intros y. unfold PyStr.contains.
  induction y as [|c y IH]; [reflexivity|]. cbn [expand].
  destruct (Ascii.eqb_spec c " ") as [-> | Hc]; cbn [append str1 list_ascii_of_string existsb].
  - exact IH.
  - destruct (Ascii.eqb_spec " "%char c); [congruence | exact IH].
Qed.

Lemma add_int_attrs n p v ts : add_int strip int n p v = Some ts -> attrs_of n ts.
Proof.
  unfold add_int. destruct v as [x|]; [|intros E; inversion E; intros t []].
  destruct (strip x =? "")%string; [intros E; inversion E; intros t []|].
  destruct (int x) as [z|]; [|discriminate].
  intros E; inversion E. intros t [<- | []]. reflexivity.
Qed.

Lemma add_str_attrs n p v : attrs_of n (add_str strip n p v).
Proof.
  unfold add_str. destruct v as [x|]; [|intros t []].
  destruct (strip x =? "")%string; [intros t []|].
  intros t [<- | []]. reflexivity.
Qed.

Lemma attrs_of_app n a b : attrs_of n a -> attrs_of n b -> attrs_of n (a ++ b).
Proof.
  intros Ha Hb t Ht. apply in_app_or in Ht. destruct Ht; [now apply Ha | now apply Hb].
Qed.

Lemma attrs_no_rel n ts s p o : attrs_of n ts -> ~ In (TRel s p o) ts.
Proof. intros H Hin. exact (H _ Hin). Qed.

Lemma attrs_no_type n ts s c : attrs_of n ts -> ~ In (TType s c) ts.
Proof. intros H Hin. exact (H _ Hin). Qed.

Lemma attrs_ok n ts : iri_ok n -> attrs_of n ts -> Forall triple_ok ts.
Proof.
  intros Hn H. apply Forall_forall. intros t Ht. specialize (H t Ht).
  destruct t; try contradiction; subst; exact Hn.
Qed.

(** A node with its type, its label and attributes of its own. *)
Lemma typed_node_facts n c lab attrs :
  iri_ok n -> attrs_of n attrs ->
  supported (TType n c :: TStr n P.label lab :: attrs) /\
  Forall triple_ok (TType n c :: TStr n P.label lab :: attrs).
Proof.
  intros Hn Ha. split; [split|].
  - intros s p o [E | [E | Hin]]; try discriminate E.
    exfalso. exact (attrs_no_rel _ _ _ _ _ Ha Hin).
  - intros s c' [E | [E | Hin]] _; try discriminate E.
    + inversion E; subst. exists lab. right. now left.
    + exfalso. exact (attrs_no_type _ _ _ _ Ha Hin).
  - constructor; [exact Hn|]. constructor; [exact Hn|]. now apply (attrs_ok n).
Qed.

Lemma course_row_facts row ts :
  course_row strip int row = Some ts -> supported ts /\ Forall triple_ok ts.
Proof.
  unfold course_row. destruct (row_item row "course_id") as [id|]; [|discriminate].
  destruct (add_int _ _ _ P.credits _) as [cr|] eqn:E1; [|discriminate].
  destruct (add_int _ _ _ P.semester _) as [se|] eqn:E2; [|discriminate].
  destruct (add_int _ _ _ P.difficulty _) as [di|] eqn:E3; [|discriminate].
  intros E; inversion E; subst ts; clear E.
  apply typed_node_facts; [apply as_uri_ok|].
  repeat apply attrs_of_app; eauto using add_int_attrs, add_str_attrs.
Qed.

Lemma labelled_row_facts n c lab :
  iri_ok n ->
  supported ([TType n c] ++ add_label n lab) /\
  Forall triple_ok ([TType n c] ++ add_label n lab).
Proof.
  intros Hn. apply (typed_node_facts n c lab []); [exact Hn | intros t []].
Qed.

Lemma career_row_facts row ts :
  career_row strip row = Some ts -> supported ts /\ Forall triple_ok ts.
Proof.
  unfold career_row. destruct (row_item row "career_id") as [id1|]; [|discriminate].
  intros E; inversion E. apply labelled_row_facts, as_uri_ok.
Qed.

Lemma paper_row_facts row ts :
  paper_row strip row = Some ts -> supported ts /\ Forall triple_ok ts.
Proof.
  unfold paper_row. destruct (row_item row "paper_id") as [id2|]; [|discriminate].
  intros E; inversion E. apply labelled_row_facts, as_uri_ok.
Qed.

Lemma prerequisite_row_facts row ts :
  prerequisite_row strip row = Some ts -> supported ts /\ Forall triple_ok ts.
Proof.
  unfold prerequisite_row.
  destruct (row_item row "course_id") as [id3|]; [|discriminate].
  destruct (row_item row "prereq_id") as [id4|]; [|discriminate].
  intros E; inversion E. split; [split|].
  - intros s p o [H | []]. inversion H; subst. split; discriminate.
  - intros s c [H | []]. discriminate H.
  - constructor; [|constructor]. split; apply as_uri_ok.
Qed.

(** A skill with its type and an edge to it. *)
Lemma skill_edge_facts sk s p :
  iri_ok sk -> iri_ok s -> is_student_rel p = false -> is_skill_rel p = true ->
  supported [TType sk P.Skill; TRel s p sk] /\
  Forall triple_ok [TType sk P.Skill; TRel s p sk].
Proof.
  intros Hsk Hs Hp1 Hp2. split; [split|].
  - intros s' p' o [H | [H | []]]; [discriminate H|]. inversion H; subst.
    split; [congruence | intros _; now left].
  - intros s' c [H | [H | []]] Hc; [|discriminate H]. inversion H; subst. congruence.
  - constructor; [exact Hsk|]. constructor; [now split | constructor].
Qed.

Lemma career_skill_row_facts row ts :
  career_skill_row strip row = Some ts -> supported ts /\ Forall triple_ok ts.
Proof.
  unfold career_skill_row.
  destruct (row_item row "career_id") as [id5|]; [|discriminate].
  destruct (row_item row "skill_id") as [id6|]; [|discriminate].
  intros E; inversion E. apply skill_edge_facts; auto using as_uri_ok.
Qed.

Lemma paper_skill_row_facts row ts :
  paper_skill_row strip row = Some ts -> supported ts /\ Forall triple_ok ts.
Proof.
  unfold paper_skill_row.
  destruct (row_item row "paper_id") as [id7|]; [|discriminate].
  destruct (row_item row "skill_id") as [id8|]; [|discriminate].
  intros E; inversion E. apply skill_edge_facts; auto using as_uri_ok.
Qed.

Lemma course_skill_row_facts row ts :
  course_skill_row strip row = Some ts -> supported ts /\ Forall triple_ok ts.
Proof.
  unfold course_skill_row.
  destruct (row_item row "skill_id") as [id|]; [|discriminate].
  destruct (row_item row "course_id") as [c|]; [|discriminate].
  intros E; inversion E; clear E. cbn [app add_label]. split; [split|].
  - intros s p o [H | [H | [H | []]]]; try discriminate H. inversion H; subst.
    split; [discriminate | intros _; now left].
  - intros s c' [H | [H | [H | []]]] Hc; try discriminate H.
    inversion H; subst. congruence.
  - repeat constructor; apply as_uri_ok.
Qed.

Lemma student_row_facts row ts :
  student_row strip int row = Some ts -> supported ts /\ Forall triple_ok ts.
Proof.
  unfold student_row. destruct (row_item row "student_id") as [id|]; [|discriminate].
  destruct (add_int _ _ _ P.targetSemester _) as [a1|] eqn:E1; [|discriminate].
  destruct (add_int _ _ _ P.maxCredits _) as [a2|] eqn:E2; [|discriminate].
  destruct (add_int _ _ _ P.maxDifficulty _) as [a3|] eqn:E3; [|discriminate].
  intros E; inversion E; subst ts; clear E.
  set (st := _as_uri strip id).
  set (takes := map (fun c_id => TRel st P.takesCourse (_as_uri strip c_id))
                  (taken_ids strip row)).
  set (ints := flat_map (fun sk_id =>
                 [TType (_as_uri strip sk_id) P.Skill;
                  TRel st P.hasInterest (_as_uri strip sk_id)])
                 (interest_ids strip row)).
  set (attrs := (a1 ++ a2 ++ a3
                 ++ add_str strip st P.preferredTrack (row_item row "preferred_track"))%list).
  assert (Ha : attrs_of st attrs).
  { unfold attrs. repeat apply attrs_of_app; eauto using add_int_attrs, add_str_attrs. }
  cbn [app add_label].
  assert (Hst : iri_ok st) by apply as_uri_ok.
  split; [split|].
  - intros s p o [H | [H | H]]; try discriminate H.
    apply in_app_or in H. destruct H as [H | H].
    + apply in_map_iff in H. destruct H as (c & H & _). inversion H; subst.
      split; [intros _; now left | discriminate].
    + apply in_app_or in H. destruct H as [H | H];
        [|exfalso; exact (attrs_no_rel _ _ _ _ _ Ha H)].
      apply in_flat_map in H. destruct H as (sk & Hsk & [H | [H | []]]);
        [discriminate H|]. inversion H; subst.
      split; [intros _; now left|]. intros _. right. right.
      apply in_or_app. right. apply in_or_app. left.
      apply in_flat_map. exists sk. split; [exact Hsk | now left].
  - intros s c [H | [H | H]] Hc; try discriminate H.
    + inversion H; subst. eexists. right. left. reflexivity.
    + exfalso. apply in_app_or in H. destruct H as [H | H].
      * apply in_map_iff in H. destruct H as (x & H & _). discriminate H.
      * apply in_app_or in H. destruct H as [H | H];
          [|exact (attrs_no_type _ _ _ _ Ha H)].
        apply in_flat_map in H. destruct H as (sk & _ & [H | [H | []]]);
          [|discriminate H]. inversion H; subst. congruence.
  - constructor; [exact Hst|]. constructor; [exact Hst|].
    apply Forall_app. split.
    + apply Forall_forall. intros t Ht. apply in_map_iff in Ht.
      destruct Ht as (c & <- & _). split; [exact Hst | apply as_uri_ok].
    + apply Forall_app. split; [|now apply (attrs_ok st)].
      apply Forall_forall. intros t Ht. apply in_flat_map in Ht.
      destruct Ht as (sk & _ & [<- | [<- | []]]);
        [apply as_uri_ok | split; [exact Hst | apply as_uri_ok]].
Qed.

Lemma stage_row_facts data stage ts :
  In stage (stages strip int data) -> stage_adds stage ts ->
  supported ts /\ Forall triple_ok ts.
Proof.
  intros Hst (rows & row & _ & _ & Hb).
  cbn [stages In] in Hst.
  repeat (destruct Hst as [<- | Hst];
          [cbn [fst] in Hb;
           eauto using course_row_facts, prerequisite_row_facts,
             course_skill_row_facts, career_row_facts, career_skill_row_facts,
             paper_row_facts, paper_skill_row_facts, student_row_facts|]).
  contradiction.
Qed.

Lemma ingested_In data g :
  build_graph_from_csv strip int data = Some g ->
  forall t, In t g <->
    exists stage ts, In stage (stages strip int data) /\ stage_adds stage ts /\ In t ts.
Proof.
  intros H t. apply run_stages_some in H. destruct H as (_ & Hin & _).
  rewrite Hin. split; [intros [[] | H]; exact H | now right].
Qed.

Lemma ingested_supported data g :
  build_graph_from_csv strip int data = Some g -> supported g.
Proof.
  intros H. pose proof (ingested_In data g H) as Hin. split.
  - intros s p o Ht. apply Hin in Ht. destruct Ht as (stage & ts & Hst & Ha & Ht).
    destruct (stage_row_facts data stage ts Hst Ha) as [[Hrel _] _].
    destruct (Hrel s p o Ht) as [H1 H2].
    split; intros Hp; apply Hin; exists stage, ts; auto.
  - intros s c Ht Hc. apply Hin in Ht. destruct Ht as (stage & ts & Hst & Ha & Ht).
    destruct (stage_row_facts data stage ts Hst Ha) as [[_ Hlab] _].
    destruct (Hlab s c Ht Hc) as (lab & Hl). exists lab.
    apply Hin. exists stage, ts. auto.
Qed.

Lemma ingested_domain_ok data g :
  build_graph_from_csv strip int data = Some g -> domain_ok g.
Proof.
  intros H s o Hin. destruct (ingested_supported data g H) as [Hrel _].
  destruct Hin as [Hin | Hin]; apply (Hrel _ _ _ Hin); reflexivity.
Qed.

End Rows.

Lemma ingested_triples_ok strip int data g :
  build_graph_from_csv strip int data = Some g -> Forall triple_ok g.
Proof.
  intros H. apply Forall_forall. intros t Ht.
  apply (ingested_In strip int data g H) in Ht.
  destruct Ht as (stage & ts & Hst & Ha & Ht).
  destruct (stage_row_facts strip int data stage ts Hst Ha) as [_ Hok].
  rewrite Forall_forall in Hok. now apply Hok.
Qed.

(** X12. The data triples of a store built from the CSV files: none is
    held twice; the
    subject of every [takesCourse] and [hasInterest] edge is typed Student;
    the object of every [hasInterest], [teachesSkill], [requiresSkill] and
    [relatedTo] edge is typed Skill; every Course, Career, ResearchPaper and
    Student node has a label; and every IRI lies in the namespace and holds
    no space. *)
Theorem ingested_store_sound strip int data g :
  build_graph_from_csv strip int data = Some g ->
  NoDup g /\ domain_ok g /\ supported g /\ Forall triple_ok g.
Proof.
  intros H. split; [|split; [|split]].
  - apply run_stages_some in H. destruct H as (_ & _ & Hnd). apply Hnd. constructor.
  - now apply (ingested_domain_ok strip int data).
  - now apply (ingested_supported strip int data).
  - now apply (ingested_triples_ok strip int data).
Qed.

(** X13. In a store built from the CSV files, an id that is not a student
    of the store gets an empty recommendation and an empty profile. *)
Theorem unknown_id_after_ingestion O strip int data g s :
  build_graph_from_csv strip int data = Some g ->
  ~ In s (subjects g P.Student) ->
  recommend O g s = {| courses := []; careers := []; papers := [] |} /\
  taken (get_profile g s) = [] /\
  interests (get_profile g s) = [].
Proof.
  intros H Hs. pose proof (ingested_domain_ok strip int data g H) as Hdom.
  assert (Ht : objects g s P.takesCourse = []).
  { apply nil_iff_no_In. intros o Ho. apply objects_In in Ho.
    apply Hs, subjects_In, (Hdom s o). now left. }
  assert (Hi : objects g s P.hasInterest = []).
  { apply nil_iff_no_In. intros o Ho. apply objects_In in Ho.
    apply Hs, subjects_In, (Hdom s o). now right. }
  split; [now apply no_edges_empty|].
  unfold get_profile. cbn [taken interests]. now rewrite Ht, Hi.
Qed.

Lemma run_stages_total l : forall g,
  (forall stage, In stage l -> stage_ok stage) ->
  exists g', run_stages l (Some g) = Some g'.
Proof.
  induction l as [|[body file] l IH]; intros g H; [now exists g|].
  cbn [run_stages fold_left fst snd].
  destruct (H (body, file) (or_introl eq_refl)) as (rows & Hf & Hrows).
  cbn [fst snd] in Hf, Hrows. subst file. unfold load.
  destruct (load_rows_total body rows g Hrows) as (g1 & ->).
  apply IH. intros st Hst. apply H. now right.
Qed.

(** X14. [build_graph_from_csv] returns a store exactly when each of the
    eight files exists and none of their rows raises; one missing file or
    one raising row, in whichever file, aborts the construction and no
    store is returned. *)
Theorem ingestion_all_or_nothing strip int data :
  (exists g, build_graph_from_csv strip int data = Some g) <->
  (forall stage, In stage (stages strip int data) -> stage_ok stage).
Proof.
  split.
  - intros (g & H). apply run_stages_some in H. now destruct H.
  - intros H. now apply run_stages_total.
Qed.

Lemma add_int_raises strip int n p v :
  add_int strip int n p v = None <->
  exists cell, v = Some cell /\ strip cell <> "" /\ int cell = None.
Proof.
  unfold add_int. destruct v as [x|].
  - destruct (String.eqb_spec (strip x) "") as [E | E].
    + split; [discriminate|]. intros (cell & H & Hne & _). inversion H; subst. contradiction.
    + destruct (int x) as [z|] eqn:Hz.
      * split; [discriminate|]. intros (cell & H & _ & Hn). inversion H; subst. congruence.
      * split; [|reflexivity]. intros _. now exists x.
  - split; [discriminate|]. intros (cell & H & _). discriminate H.
Qed.

(** X15. A row of courses.csv raises exactly when it has no [course_id]
    column or when its credits, semester or difficulty cell is neither
    blank nor an integer; a missing or blank cell raises nothing. *)
Theorem course_row_raises strip int row :
  course_row strip int row = None <->
  row_item row "course_id" = None \/
  exists key cell,
    In key ["credits"; "semester"; "difficulty"] /\
    row_item row key = Some cell /\ strip cell <> "" /\ int cell = None.
Proof.
  unfold course_row. destruct (row_item row "course_id") as [id|];
    [|split; [now left | reflexivity]].
  destruct (add_int strip int _ P.credits _) as [cr|] eqn:E1;
    [|split; [|reflexivity]; intros _; right;
      apply add_int_raises in E1; destruct E1 as (cell & H);
      exists "credits", cell; split; [now left | exact H]].
  destruct (add_int strip int _ P.semester _) as [se|] eqn:E2;
    [|split; [|reflexivity]; intros _; right;
      apply add_int_raises in E2; destruct E2 as (cell & H);
      exists "semester", cell; split; [right; now left | exact H]].
  destruct (add_int strip int _ P.difficulty _) as [di|] eqn:E3;
    [|split; [|reflexivity]; intros _; right;
      apply add_int_raises in E3; destruct E3 as (cell & H);
      exists "difficulty", cell; split; [right; right; now left | exact H]].
  split; [discriminate|].
  intros [H | (key & cell & Hk & Hc & Hne & Hi)]; [discriminate H|].
  exfalso.
  assert (Hr : forall p, add_int strip int (_as_uri strip id) p (row_item row key) = None)
    by (intros p; apply add_int_raises; now exists cell).
  destruct Hk as [<- | [<- | [<- | []]]]; [rewrite Hr in E1 | rewrite Hr in E2 | rewrite Hr in E3];
    discriminate.
Qed.

(** X16. Rows that repeat earlier rows of the same file change nothing:
    the store after the file is the store without the repeated rows. *)
Theorem repeated_rows_harmless body rows again g :
  (forall row, In row again -> In row rows) ->
  load body (Some (rows ++ again)%list) g = load body (Some rows) g.
Proof.
  intros Hsub. unfold load, load_rows. rewrite fold_left_app.
  change (load_rows body again (load_rows body rows (Some g)) =
          load_rows body rows (Some g)).
  destruct (load_rows body rows (Some g)) as [g1|] eqn:H;
    [|apply load_rows_none].
  apply load_rows_some in H. destruct H as (Hall & Hin & _).
  clear -Hsub Hall Hin. induction again as [|r again IH]; [reflexivity|].
  cbn [load_rows fold_left].
  assert (Hr : In r rows) by (apply Hsub; now left).
  destruct (Hall r Hr) as (ts & Hts). rewrite Hts. cbn [option_map].
  rewrite fold_add_known.
  - apply IH. intros row Hrow. apply Hsub. now right.
  - intros t Ht. apply Hin. right. now exists r, ts.
Qed.

(* ================================================================== *)
(** * A student without interests *)
(* ================================================================== *)

(** X17. A student without [hasInterest] edges gets no course and no
    paper, whatever the store holds; careers can still match through the
    skills of taken courses. *)
Theorem no_interest_no_course O g s :
  objects g s P.hasInterest = [] ->
  courses (recommend O g s) = [] /\ papers (recommend O g s) = [].
Proof.
  intros Hi.
  assert (Hint : interest_skills O g s = [])
    by (unfold interest_skills, s_node; rewrite Hi; apply set_nil).
  cbn [courses papers recommend]. split.
  - unfold rec_courses, ranked, candidates.
    rewrite flat_map_nil; [reflexivity|].
    intros c _. unfold candidate. rewrite Hint.
    destruct (Py.mem c (taken_courses O g s)); [reflexivity|].
    now rewrite intersection_nil_r.
  - unfold rec_papers. rewrite flat_map_nil; [reflexivity|].
    intros c _. unfold paper_entry. rewrite Hint.
    now rewrite intersection_nil_r.
Qed.

(* ================================================================== *)
(** * The added theorems at example inputs *)
(* ================================================================== *)

Lemma label_fallback_witness :
  iri_to_label Ex.eve_graph (S2A "Stats") = "Stats".
Proof.
  apply (proj2 (proj2 (label_fallback Ex.eve_graph (S2A "Stats"))) "Stats");
    [reflexivity | reflexivity | left; vm_compute; reflexivity].
Defined.

Lemma eligible_course_returned_witness :
  exists r,
    In r (courses (recommend Py.insertion_order Ex.eve_graph Ex.eve)) /\
    course r = iri_to_label Ex.eve_graph Ex.cs300.
Proof.
  apply (eligible_course_returned Py.insertion_order Ex.eve_graph Ex.eve Ex.cs300).
  - vm_compute. reflexivity.
  - vm_compute. left. reflexivity.
  - vm_compute. intros [].
  - exists Ex.ml. split; vm_compute; left; reflexivity.
  - intros p Hp. vm_compute in Hp. contradiction.
  - repeat split; intros a b H; vm_compute in H; discriminate H.
Defined.

Lemma no_fail_line_returned_witness :
  length (constraint_checks (explain Ex.cs201_rec)) = 3%nat /\
  forall l, In l (constraint_checks (explain Ex.cs201_rec)) ->
            PyStr.endswith l "=> FAIL" = false.
Proof.
  apply (no_fail_line_returned Py.insertion_order Ex.ada_graph Ex.ada Ex.cs201_rec).
  vm_compute. left. reflexivity.
Defined.

Lemma ingested_store_sound_witness :
  build_graph_from_csv Sample.strip Sample.int Sample.data = Some Sample.graph /\
  NoDup Sample.graph /\ domain_ok Sample.graph.
Proof.
  assert (H : build_graph_from_csv Sample.strip Sample.int Sample.data
              = Some Sample.graph) by (vm_compute; reflexivity).
  split; [exact H|].
  destruct (ingested_store_sound Sample.strip Sample.int Sample.data Sample.graph H)
    as (H1 & H2 & _).
  split; assumption.
Defined.

Lemma unknown_id_after_ingestion_witness :
  recommend Py.insertion_order Sample.graph (S2A "CS101")
    = {| courses := []; careers := []; papers := [] |}.
Proof.
  refine (proj1 (unknown_id_after_ingestion Py.insertion_order Sample.strip
                   Sample.int Sample.data Sample.graph (S2A "CS101") _ _)).
  - vm_compute. reflexivity.
  - vm_compute. intros [E | []]. discriminate E.
Defined.

Lemma repeated_rows_harmless_witness :
  load (course_row Sample.strip Sample.int)
    (option_map (fun rows => rows ++ rows)%list (courses_csv Sample.data)) [] =
  load (course_row Sample.strip Sample.int) (courses_csv Sample.data) [].
Proof.
  cbn [courses_csv Sample.data option_map].
  apply (repeated_rows_harmless (course_row Sample.strip Sample.int)).
  intros row H. exact H.
Defined.

Lemma no_interest_no_course_witness :
  courses (recommend Py.insertion_order Ex.fay_graph Ex.fay) = [] /\
  papers (recommend Py.insertion_order Ex.fay_graph Ex.fay) = [] /\
  careers (recommend Py.insertion_order Ex.fay_graph Ex.fay) <> [].
Proof.
  destruct (no_interest_no_course Py.insertion_order Ex.fay_graph Ex.fay)
    as [H1 H2]; [vm_compute; reflexivity|].
  split; [exact H1|]. split; [exact H2|].
  vm_compute. intros E. discriminate E.
Defined.

Lemma sibling_lists_sorted_witness :
  StronglySorted (fun a b => (a <=? b)%string = true)
    (matched_interests Ex.cs201_rec).
Proof.
  refine (proj1 (sibling_lists_sorted Py.insertion_order Ex.ada_graph Ex.ada
                   Ex.cs201_rec _)).
  vm_compute. left. reflexivity.
Defined.
